(** * Entity spaces of ezdxf: [EntitySpace] and [LayoutSpaces]

    A shallow embedding of [ezdxf/entityspace.py].  An [EntitySpace] is a
    Python list of handles that also carries a reference to the shared
    entity database; a [LayoutSpaces] object is a dict from layout keys to
    [EntitySpace] objects.  Both are mutable objects, and the same
    [EntitySpace] object can be reached through several names, so the
    embedding keeps an object store ([heap]) and the dict holds locations.
    Python exceptions are explicit outcomes, and the loops that Python can
    run forever ([while handle is not None], [for] over a list that grows)
    take fuel. *)

From stdpp Require Import gmap strings list fin_maps.

(** ** Tag values, tags and records *)

(** The value of a DXF tag: an integer (group codes 60-99, the default [0])
    or a string (handles, names).  Python compares them with [==]; an
    integer never equals a string. *)
Inductive value := VInt (z : Z) | VStr (s : string).

Global Instance value_eq_dec : EqDecision value.
Proof. solve_decision. Defined.

Global Instance value_countable : Countable value.
Proof.
  refine (inj_countable'
            (λ v, match v with VInt z => inl z | VStr s => inr s end)
            (λ x, match x with inl z => VInt z | inr s => VStr s end) _).
  by intros [].
Defined.

(** Handles are the keys of the entity database. *)
Abbreviation handle := string.

(** A tag is a pair of a group code and a value; [Tags] is a list of tags. *)
Abbreviation Tags := (list (Z * value)).

(** Modelled from the spec: the tag accessors of [lldxf] ("tag accessors
    sufficient to read/write the paper-space flag and owner-reference
    fields").  [get_first_value] is the value of the first tag with the
    group code, [None] standing for the [ValueError] of a call without
    default. *)
Fixpoint get_first_value (ts : Tags) (code : Z) : option value :=
  match ts with
  | [] => None
  | (c, v) :: rest => if decide (c = code) then Some v else get_first_value rest code
  end.

(** Modelled from the spec: [get_first_value(code, default=d)]. *)
Definition get_first_value_default (ts : Tags) (code : Z) (d : value) : value :=
  default d (get_first_value ts code).

(** Modelled from the spec: [set_first(code, value)] overwrites the first
    tag with the group code, or appends a new tag when there is none. *)
Fixpoint set_first (ts : Tags) (code : Z) (v : value) : Tags :=
  match ts with
  | [] => [(code, v)]
  | (c, x) :: rest =>
      if decide (c = code) then (code, v) :: rest else (c, x) :: set_first rest code v
  end.

(** Modelled from the spec: the record type of [lldxf] ("exposes
    [handle()], an optional [link()], and tag accessors; fails if a record
    queried for its entity-level tag group lacks it").  [noclass] holds the
    tags before the first subclass marker, [subclasses] the named groups. *)
Record ClassifiedTags := mkTags {
  get_handle : handle;
  link : option handle;
  noclass : Tags;
  subclasses : list (string * Tags)
}.

(** Modelled from the spec: [get_subclass(name)], [None] standing for the
    [KeyError] of a record without that group. *)
Fixpoint find_subclass (subs : list (string * Tags)) (name : string) : option Tags :=
  match subs with
  | [] => None
  | (n, ts) :: rest => if decide (n = name) then Some ts else find_subclass rest name
  end.

Definition get_subclass (t : ClassifiedTags) (name : string) : option Tags :=
  find_subclass (subclasses t) name.

Definition set_noclass (t : ClassifiedTags) (ts : Tags) : ClassifiedTags :=
  {| get_handle := get_handle t; link := link t; noclass := ts; subclasses := subclasses t |}.

(** Modelled from the spec: a [DXFEntity] wraps its record; [entity.tags]
    is [tags] and [entity.dxf.handle] is the record's handle. *)
Record DXFEntity := mkEntity { tags : ClassifiedTags }.

Definition dxf_handle (e : DXFEntity) : handle := get_handle (tags e).

(** ** The object store *)

Abbreviation loc := nat.

(** [heap] holds the [EntitySpace] objects (each one a list of handles),
    [entitydb] is the entity database shared by all of them, [written] is
    what the tag writer has received so far.  [layout_spaces],
    [dxfversion] and [get_key] are the attributes of the one
    [LayoutSpaces] object. *)
Record state := mkState {
  heap : gmap loc (list handle);
  entitydb : gmap handle ClassifiedTags;
  written : list ClassifiedTags;
  layout_spaces : gmap value loc;
  dxfversion : string;
  get_key : ClassifiedTags → value
}.

Definition set_heap (st : state) (h : gmap loc (list handle)) : state :=
  {| heap := h; entitydb := entitydb st; written := written st;
     layout_spaces := layout_spaces st; dxfversion := dxfversion st; get_key := get_key st |}.

Definition set_entitydb (st : state) (db : gmap handle ClassifiedTags) : state :=
  {| heap := heap st; entitydb := db; written := written st;
     layout_spaces := layout_spaces st; dxfversion := dxfversion st; get_key := get_key st |}.

Definition set_written (st : state) (w : list ClassifiedTags) : state :=
  {| heap := heap st; entitydb := entitydb st; written := w;
     layout_spaces := layout_spaces st; dxfversion := dxfversion st; get_key := get_key st |}.

Definition set_layout_spaces (st : state) (m : gmap value loc) : state :=
  {| heap := heap st; entitydb := entitydb st; written := written st;
     layout_spaces := m; dxfversion := dxfversion st; get_key := get_key st |}.

(** The list object at a location. *)
Definition content (st : state) (self : loc) : list handle := heap st !!! self.

(** ** Computations: state, exceptions, fuel *)

Inductive exn := KeyError | ValueError | DXFStructureError.

Global Instance exn_eq_dec : EqDecision exn.
Proof. solve_decision. Defined.

(** A raised exception keeps the state reached so far: Python does not roll
    back the mutations made before the [raise]. *)
Inductive outcome (A : Type) :=
  | Return (a : A) (st : state)
  | Raise (e : exn) (st : state)
  | OutOfFuel.
Arguments Return {A} a st.
Arguments Raise {A} e st.
Arguments OutOfFuel {A}.

Definition M (A : Type) : Type := state → outcome A.

Definition ret {A} (a : A) : M A := λ st, Return a st.
Definition raise {A} (e : exn) : M A := λ st, Raise e st.
Definition bind {A B} (m : M A) (k : A → M B) : M B :=
  λ st, match m st with
        | Return a st' => k a st'
        | Raise e st' => Raise e st'
        | OutOfFuel => OutOfFuel
        end.

Notation "'let!' x ':=' m 'in' k" := (bind m (λ x, k))
  (at level 10, x name, m at level 100, k at level 200, only parsing).
Notation "m >>> k" := (bind m (λ _, k))
  (at level 60, right associativity, only parsing).

(** [for x in self: body] over a list object.  Python's list iterator keeps
    an index and compares it with the current length of the list at every
    step, so elements appended during the loop are visited too. *)
Fixpoint for_in (fuel : nat) (self : loc) (i : nat) (body : handle → M unit) : M unit :=
  match fuel with
  | O => λ _, OutOfFuel
  | S fuel' =>
      λ st, match content st self !! i with
            | None => Return tt st
            | Some x => (body x >>> for_in fuel' self (S i) body) st
            end
  end.

(** A plain traversal of a fixed list, used to describe loops whose body
    leaves the list alone. *)
Fixpoint for_each (l : list handle) (body : handle → M unit) : M unit :=
  match l with
  | [] => ret tt
  | x :: rest => body x >>> for_each rest body
  end.

(** [for x in xs: body] over a sequence that the body cannot reach (the
    values or the keys of the registry dict, an argument list). *)
Fixpoint iterate {A} (xs : list A) (body : A → M unit) : M unit :=
  match xs with
  | [] => ret tt
  | x :: rest => body x >>> iterate rest body
  end.

(** [list.remove(x)]: drops the first occurrence; [None] stands for the
    [ValueError] raised when there is none. *)
Fixpoint list_remove (x : handle) (l : list handle) : option (list handle) :=
  match l with
  | [] => None
  | y :: rest => if decide (y = x) then Some rest else (y ::.) <$> list_remove x rest
  end.

(** [self._entitydb[handle]]. *)
Definition entitydb_getitem (h : handle) : M ClassifiedTags :=
  λ st, match entitydb st !! h with
        | Some t => Return t st
        | None => Raise KeyError st
        end.

(** ** class EntitySpace(list) *)

Module EntitySpace.

(** [EntitySpace(entitydb)]: a new, empty list object. *)
Definition new : M loc :=
  λ st, let l := fresh (dom (heap st)) in
        Return l (set_heap st (<[l := []]> (heap st))).

Definition get_tags_by_handle (self : loc) (h : handle) : M ClassifiedTags :=
  entitydb_getitem h.

(** [self.append(handle)]. *)
Definition append (self : loc) (h : handle) : M unit :=
  λ st, Return tt (set_heap st (<[self := content st self ++ [h]]> (heap st))).

Definition store_tags (self : loc) (t : ClassifiedTags) : M handle :=
  let h := get_handle t in
  append self h >>> ret h.

(** [tagwriter.write_tags(tags)]: the writer receives one more record. *)
Definition write_tags (t : ClassifiedTags) : M unit :=
  λ st, Return tt (set_written st (written st ++ [t])).

(** The inner [while handle is not None] loop of [write]. *)
Fixpoint write_linked (fuel : nat) (h : option handle) : M unit :=
  match h with
  | None => ret tt
  | Some h' =>
      match fuel with
      | O => λ _, OutOfFuel
      | S fuel' =>
          let! t := entitydb_getitem h' in
          write_tags t >>>
          write_linked fuel' (link t)
      end
  end.

Definition write (fuel : nat) (self : loc) : M unit :=
  for_in fuel self 0 (λ h, write_linked fuel (Some h)).

Definition delete_entity (self : loc) (entity : DXFEntity) : M unit :=
  λ st, match list_remove (dxf_handle entity) (content st self) with
        | Some l => Return tt (set_heap st (<[self := l]> (heap st)))
        | None => Raise ValueError st
        end.

Definition delete_all_entities (self : loc) : M unit :=
  λ st, Return tt (set_heap st (<[self := []]> (heap st))).

Definition add_handle (self : loc) (h : handle) : M unit :=
  append self h.

End EntitySpace.

(** ** class LayoutSpaces(object) *)

Module LayoutSpaces.

(** The two key functions of [__init__]. *)
Definition paper_space_value (t : ClassifiedTags) : value :=
  get_first_value_default (noclass t) 67 (VInt 0).

Definition owner_value (t : ClassifiedTags) : value :=
  get_first_value_default (noclass t) 330 (VInt 0).

(** [dxfversion <= 'AC1009'], the comparison of Python strings. *)
Definition legacy (dxfversion : string) : bool := String.leb dxfversion "AC1009".

(** [LayoutSpaces(entitydb, dxfversion)] in a store without other
    objects. *)
Definition init (db : gmap handle ClassifiedTags) (version : string) : state :=
  {| heap := ∅;
     entitydb := db;
     written := [];
     layout_spaces := ∅;
     dxfversion := version;
     get_key := if legacy version then paper_space_value else owner_value |}.

Definition set_entity_space (key : value) (entity_space : loc) : M unit :=
  λ st, Return tt (set_layout_spaces st (<[key := entity_space]> (layout_spaces st))).

Definition get_entity_space (key : value) : M loc :=
  λ st, match layout_spaces st !! key with
        | Some entity_space => Return entity_space st
        | None =>
            (let! entity_space := EntitySpace.new in
             set_entity_space key entity_space >>>
             ret entity_space) st
        end.

Definition store_tags (t : ClassifiedTags) : M unit :=
  λ st, (let! entity_space := get_entity_space (get_key st t) in
         let! _ := EntitySpace.store_tags entity_space t in
         ret tt) st.

Definition delete_entity (entity : DXFEntity) : M unit :=
  λ st, let key := get_key st (tags entity) in
        match layout_spaces st !! key with
        | None => Return tt st
        | Some entity_space => EntitySpace.delete_entity entity_space entity st
        end.

(** [del self._layout_spaces[key]]. *)
Definition del_layout_space (key : value) : M unit :=
  λ st, match layout_spaces st !! key with
        | Some _ => Return tt (set_layout_spaces st (delete key (layout_spaces st)))
        | None => Raise KeyError st
        end.

Definition delete_entity_space (key : value) : M unit :=
  λ st, match layout_spaces st !! key with
        | None => Raise KeyError st
        | Some entity_space =>
            (EntitySpace.delete_all_entities entity_space >>>
             del_layout_space key) st
        end.

(** [tags.noclass.set_first(330, key)] on the record stored under
    [h]: the record is an object of the database and is updated in
    place. *)
Definition set_owner (h : handle) (t : ClassifiedTags) (key : value) : M unit :=
  λ st, Return tt
          (set_entitydb st
             (<[h := set_noclass t (set_first (noclass t) 330 key)]> (entitydb st))).

(** The body of the loop of [update_entity_tags]. *)
Definition tag_entity (model_space_key paper_space_key : value)
    (entity_space : loc) (h : handle) : M unit :=
  let! t := EntitySpace.get_tags_by_handle entity_space h in
  match get_subclass t "AcDbEntity" with
  | None => raise DXFStructureError
  | Some entity_tags =>
      let key :=
        if decide (get_first_value_default entity_tags 67 (VInt 0) = VInt 0)
        then model_space_key
        else paper_space_key in
      set_owner h t key
  end.

(** The inner function [update_entity_tags] of [repair_owner_tags]. *)
Definition update_entity_tags (fuel : nat) (model_space_key paper_space_key : value)
    (entity_space : loc) : M unit :=
  for_in fuel entity_space 0 (tag_entity model_space_key paper_space_key entity_space).

(** The body of the loop of [distribute]; [model_space] and [paper_space]
    are the objects bound in the enclosing call. *)
Definition place_entity (model_space_key paper_space_key : value)
    (model_space paper_space : loc) (entity_space : loc) (h : handle) : M unit :=
  let! t := EntitySpace.get_tags_by_handle entity_space h in
  match get_first_value (noclass t) 330 with
  | None => raise ValueError
  | Some owner =>
      if decide (owner = model_space_key) then EntitySpace.add_handle model_space h
      else if decide (owner = paper_space_key) then EntitySpace.add_handle paper_space h
      else raise DXFStructureError
  end.

(** The inner function [distribute] of [repair_owner_tags]. *)
Definition distribute (fuel : nat) (model_space_key paper_space_key : value)
    (model_space paper_space : loc) (entity_space : loc) : M unit :=
  for_in fuel entity_space 0
    (place_entity model_space_key paper_space_key model_space paper_space entity_space).

Definition repair_owner_tags (fuel : nat) (model_space_key paper_space_key : value) : M unit :=
  λ st,
    if legacy (dxfversion st) then Return tt st
    else match layout_spaces st !! VInt 0 with
         | None => Return tt st
         | Some temp_model_space =>
             (let! model_space := get_entity_space model_space_key in
              let! paper_space := get_entity_space paper_space_key in
              update_entity_tags fuel model_space_key paper_space_key temp_model_space >>>
              distribute fuel model_space_key paper_space_key model_space paper_space
                temp_model_space >>>
              del_layout_space (VInt 0)) st
         end.

(** [self._layout_spaces.values()] and [.keys()]: the registered space
    objects and their keys, in the order the dict yields them.  The
    language does not fix that order; the order of [map_to_list] stands
    for it. *)
Definition values (st : state) : list loc := (map_to_list (layout_spaces st)).*2.

Definition keys (st : state) : list value := (map_to_list (layout_spaces st)).*1.

(** [__iter__]: over the space objects. *)
Definition __iter__ (st : state) : list loc := values st.

(** [__getitem__]: [self._layout_spaces[key]]. *)
Definition __getitem__ (key : value) : M loc :=
  λ st, match layout_spaces st !! key with
        | Some entity_space => Return entity_space st
        | None => Raise KeyError st
        end.

(** [__len__]: the sum of the lengths of the spaces, one summand per
    key. *)
Definition __len__ (st : state) : nat :=
  sum_list ((λ entity_space, length (content st entity_space)) <$> values st).

(** [handles]: what the generator yields when the store is not changed
    while it runs: space by space, each space in list order. *)
Definition handles (st : state) : list handle :=
  concat ((λ entity_space, content st entity_space) <$> __iter__ st).

(** [write(tagwriter, keys=None)]: [None] stands for the set of all keys,
    any other value for the iterable the caller passes. *)
Definition write (fuel : nat) (ks : option (list value)) : M unit :=
  λ st,
    let ks' := match ks with Some l => l | None => keys st end in
    iterate ks' (λ key,
      let! entity_space := __getitem__ key in
      EntitySpace.write fuel entity_space) st.

Definition delete_all_entities : M unit :=
  λ st, iterate (values st) EntitySpace.delete_all_entities st.

End LayoutSpaces.

(** ** Well-formed stores and specification-level notions *)

(** Every registered space is an allocated object.  Python gives this for
    free (a dict value is a live object); in the embedding it is an
    invariant of the store. *)
Definition heap_closed (st : state) : Prop :=
  map_Forall (λ _ es, is_Some (heap st !! es)) (layout_spaces st).

(** Different keys hold different objects.  [get_entity_space] keeps it;
    only [set_entity_space] with an object that is already registered
    breaks it. *)
Definition no_alias (st : state) : Prop :=
  map_Forall (λ k1 e1, map_Forall (λ k2 e2, e1 = e2 → k1 = k2) (layout_spaces st))
    (layout_spaces st).

(** The handles filed under a key, [[]] when the key has no space. *)
Definition space_of (st : state) (key : value) : list handle :=
  match layout_spaces st !! key with
  | Some es => content st es
  | None => []
  end.

(** The records reached from a handle by following [link] until it is
    [None]: what the spec calls a link chain. *)
Inductive chain (db : gmap handle ClassifiedTags) : handle → list ClassifiedTags → Prop :=
  | chain_last h t :
      db !! h = Some t → link t = None → chain db h [t]
  | chain_more h t h' l :
      db !! h = Some t → link t = Some h' → chain db h' l → chain db h (t :: l).

(** A sequence of [store_tags] calls on the registry. *)
Fixpoint stores (rs : list ClassifiedTags) : M unit :=
  match rs with
  | [] => ret tt
  | r :: rest => LayoutSpaces.store_tags r >>> stores rest
  end.

(** The paper-space flag that [update_entity_tags] reads: tag 67 of the
    [AcDbEntity] group, default [0]. *)
Definition paper_space_flag (entity_tags : Tags) : value :=
  get_first_value_default entity_tags 67 (VInt 0).

(** The space object an entity is appended to by [distribute], from its
    owner tag. *)
Definition destination (mk pk : value) (model_space paper_space : loc)
    (t : ClassifiedTags) : option loc :=
  match get_first_value (noclass t) 330 with
  | Some owner =>
      if decide (owner = mk) then Some model_space
      else if decide (owner = pk) then Some paper_space
      else None
  | None => None
  end.

(** The state an outcome ends in, when it ends. *)
Definition final_state {A} (o : outcome A) : option state :=
  match o with
  | Return _ st => Some st
  | Raise _ st => Some st
  | OutOfFuel => None
  end.

(** A body that leaves the list it is run over alone. *)
Definition keeps_content (self : loc) (body : handle → M unit) : Prop :=
  ∀ x st st', body x st = Return tt st' → content st' self = content st self.

(** The registry after the records [stored] have been filed, and nothing
    else: every space holds the handles of the stored records with its key,
    in the order they were stored. *)
Definition filed (st : state) (stored : list ClassifiedTags) : Prop :=
  heap_closed st ∧ no_alias st ∧
  (∀ k es, layout_spaces st !! k = Some es →
     content st es = get_handle <$> filter (λ r, get_key st r = k) stored) ∧
  (∀ r, r ∈ stored → is_Some (layout_spaces st !! get_key st r)).

(** The key that [update_entity_tags] writes into a record: the model
    key when the paper-space flag is [0], the paper key otherwise. *)
Definition resolved_key (mk pk : value) (entity_tags : Tags) : value :=
  if decide (paper_space_flag entity_tags = VInt 0) then mk else pk.

(** A record of the database that has been through [update_entity_tags]:
    it has its [AcDbEntity] group and its owner tag is the resolved key. *)
Definition tagged (mk pk : value) (db : gmap handle ClassifiedTags) (h : handle) : Prop :=
  ∃ t entity_tags,
    db !! h = Some t ∧ get_subclass t "AcDbEntity" = Some entity_tags ∧
    get_first_value (noclass t) 330 = Some (resolved_key mk pk entity_tags).

(** Two databases with the same handles and, handle by handle, the same
    subclass groups: [update_entity_tags] only rewrites [noclass]. *)
Definition same_groups (db db' : gmap handle ClassifiedTags) : Prop :=
  ∀ h, subclasses <$> (db !! h) = subclasses <$> (db' !! h).

(** A record that [distribute] can read: it is in the database and has an
    owner tag. *)
Definition has_owner (db : gmap handle ClassifiedTags) (h : handle) : Prop :=
  ∃ t owner, db !! h = Some t ∧ get_first_value (noclass t) 330 = Some owner.

(** A record that [update_entity_tags] can tag: it is in the database and
    has its [AcDbEntity] group. *)
Definition has_entity_group (db : gmap handle ClassifiedTags) (h : handle) : Prop :=
  ∃ t entity_tags, db !! h = Some t ∧ get_subclass t "AcDbEntity" = Some entity_tags.

(** ** Example data *)

(** An entity record with handle [h]: the handle tag in [noclass], an
    optional owner tag 330 in [noclass], and an [AcDbEntity] group with an
    optional paper-space tag 67. *)
Definition entity_record (h : handle) (lnk : option handle) (owner : option value)
    (flag : option Z) : ClassifiedTags :=
  {| get_handle := h;
     link := lnk;
     noclass := [(0%Z, VStr "LINE"); (5%Z, VStr h)] ++
                match owner with Some o => [(330%Z, o)] | None => [] end;
     subclasses :=
       [("AcDbEntity",
         (100%Z, VStr "AcDbEntity") ::
         match flag with Some f => [(67%Z, VInt f)] | None => [] end)] |}.

(** The state a computation ends in ([st] itself when it runs out of
    fuel). *)
Definition after {A} (m : M A) (st : state) : state :=
  default st (final_state (m st)).

(** Three records without owner tag, with paper-space flags 0, 1, 0. *)
Definition rec_A : ClassifiedTags := entity_record "A" None None (Some 0%Z).
Definition rec_B : ClassifiedTags := entity_record "B" None None (Some 1%Z).
Definition rec_C : ClassifiedTags := entity_record "C" None None (Some 0%Z).

Definition db_ABC : gmap handle ClassifiedTags :=
  <["A" := rec_A]> (<["B" := rec_B]> (<["C" := rec_C]> ∅)).

(** An AC1018 registry after the three records have been stored: they are
    all in the temporary space under key [0]. *)
Definition st_ABC : state := after (stores [rec_A; rec_B; rec_C]) (LayoutSpaces.init db_ABC "AC1018").

(** The same registry with the model and paper spaces created, and a
    database in which the owner tags have been set from outside: ["A"] to
    the model key [100], ["B"] to a handle that is neither key. *)
Definition db_forced : gmap handle ClassifiedTags :=
  <["A" := entity_record "A" None (Some (VInt 100)) (Some 0%Z)]>
    (<["B" := entity_record "B" None (Some (VStr "FF")) (Some 1%Z)]>
       (<["C" := entity_record "C" None (Some (VInt 200)) (Some 0%Z)]> ∅)).

Definition st_forced : state :=
  set_entitydb
    (after (LayoutSpaces.get_entity_space (VInt 200)) (after (LayoutSpaces.get_entity_space (VInt 100)) st_ABC))
    db_forced.

(** A record without its [AcDbEntity] group, alone in the temporary
    space. *)
Definition rec_bare : ClassifiedTags :=
  {| get_handle := "D"; link := None;
     noclass := [(0%Z, VStr "LINE"); (5%Z, VStr "D")]; subclasses := [] |}.

Definition st_bare : state :=
  after (LayoutSpaces.store_tags rec_bare) (LayoutSpaces.init (<["D" := rec_bare]> ∅) "AC1018").

(** A polyline whose record links to a vertex record, whose link is
    empty; a record that links to itself. *)
Definition rec_poly : ClassifiedTags := entity_record "P" (Some "V") None None.
Definition rec_vertex : ClassifiedTags := entity_record "V" None None None.
Definition rec_loop : ClassifiedTags := entity_record "L" (Some "L") None None.

Definition st_chain : state :=
  after (LayoutSpaces.store_tags rec_poly)
    (LayoutSpaces.init (<["P" := rec_poly]> (<["V" := rec_vertex]> (<["L" := rec_loop]> ∅))) "AC1018").

Definition st_loop : state :=
  after (LayoutSpaces.store_tags rec_loop) (LayoutSpaces.init (<["L" := rec_loop]> ∅) "AC1018").

(** The registry of [st_ABC] after [repair_owner_tags(100, 200)]. *)
Definition st_repaired : state :=
  after (LayoutSpaces.repair_owner_tags 4 (VInt 100) (VInt 200)) st_ABC.

(** The link chains of the handles of the space registered under a key,
    in list order. *)
Definition space_chains (st : state) (key : value)
    (chains : list (list ClassifiedTags)) : Prop :=
  ∃ es, layout_spaces st !! key = Some es ∧
        Forall2 (chain (entitydb st)) (content st es) chains.

(** What [update_entity_tags] makes of a record: the same record with the
    resolved key written into its owner tag. *)
Definition retagged (mk pk : value) (t t' : ClassifiedTags) : Prop :=
  ∃ entity_tags,
    get_subclass t "AcDbEntity" = Some entity_tags ∧
    t' = set_noclass t (set_first (noclass t) 330 (resolved_key mk pk entity_tags)).

(** The key that the paper-space flag of the record of a handle resolves
    to, when the database has the record and the record its group. *)
Definition resolved_key_of (db : gmap handle ClassifiedTags) (mk pk : value)
    (h : handle) : option value :=
  match db !! h with
  | Some t =>
      match get_subclass t "AcDbEntity" with
      | Some entity_tags => Some (resolved_key mk pk entity_tags)
      | None => None
      end
  | None => None
  end.

(** The space object that [distribute] appends a handle to. *)
Definition destination_of (db : gmap handle ClassifiedTags) (mk pk : value)
    (model_space paper_space : loc) (h : handle) : option loc :=
  match db !! h with
  | Some t => destination mk pk model_space paper_space t
  | None => None
  end.

(** The record of a handle in the database [db], against its record in
    the database [db0] that a repair started from: retagged. *)
Definition retagged_in (mk pk : value) (db0 db : gmap handle ClassifiedTags)
    (h : handle) : Prop :=
  ∃ t t', db0 !! h = Some t ∧ db !! h = Some t' ∧ retagged mk pk t t'.

(** How the database [db] reached during a repair relates to the database
    [db0] it started from: a record is what it was, or it is the record of
    a handle of the temporary space, retagged. *)
Definition repaired_from (mk pk : value) (temp : list handle)
    (db0 db : gmap handle ClassifiedTags) : Prop :=
  ∀ h, db !! h = db0 !! h ∨ (h ∈ temp ∧ retagged_in mk pk db0 db h).

(** What no step of a repair touches: the tag writer, the version and the
    key function. *)
Definition same_settings (st st' : state) : Prop :=
  written st' = written st ∧ dxfversion st' = dxfversion st ∧ get_key st' = get_key st.

(** A state reached from [st] by writing records of its database to the
    tag writer, and by nothing else. *)
Definition appended (st st' : state) : Prop :=
  ∃ out, st' = set_written st (written st ++ out) ∧
         Forall (λ t, ∃ h, entitydb st !! h = Some t) out.

(** An outcome of a [write]: a return or a [KeyError], in a state that
    only has more records written. *)
Definition appends_only (st : state) (o : outcome unit) : Prop :=
  match o with
  | Return _ st' => appended st st'
  | Raise e st' => e = KeyError ∧ appended st st'
  | OutOfFuel => True
  end.


(** The paper-space flag of the record of [h] resolves to a key under
    which the space object [temp] is registered. *)
Definition resolves_to_temp (mk pk : value) (st : state) (temp : loc) (h : handle) : Prop :=
  match resolved_key_of (entitydb st) mk pk h with
  | Some key => layout_spaces st !! key = Some temp
  | None => False
  end.

Global Instance resolves_to_temp_dec mk pk st temp h :
  Decision (resolves_to_temp mk pk st temp h).
Proof.
  unfold resolves_to_temp.
  destruct (resolved_key_of (entitydb st) mk pk h); apply _.
Defined.

(** The registries on which [repair_owner_tags] appends to the list it
    runs over: both guards are passed, every handle of the temporary space
    has a record with its [AcDbEntity] group (the tag-fix pass returns),
    and the flag of some handle resolves to a key under which the
    temporary space itself is registered. *)
Definition loops_back (mk pk : value) (st : state) : Prop :=
  LayoutSpaces.legacy (dxfversion st) = false ∧
  match layout_spaces st !! VInt 0 with
  | Some temp =>
      Forall (λ h, is_Some (resolved_key_of (entitydb st) mk pk h)) (content st temp) ∧
      Exists (resolves_to_temp mk pk st temp) (content st temp)
  | None => False
  end.

Global Instance loops_back_dec mk pk st : Decision (loops_back mk pk st).
Proof.
  unfold loops_back.
  destruct (layout_spaces st !! VInt 0); apply _.
Defined.


(** * Properties *)

Import LayoutSpaces.

(** ** The store *)

Lemma content_insert_eq st l x :
  content (set_heap st (<[l := x]> (heap st))) l = x.
Proof. unfold content. simpl. apply lookup_total_insert_eq. Qed.

Lemma content_insert_ne st l l' x :
  l ≠ l' → content (set_heap st (<[l := x]> (heap st))) l' = content st l'.
Proof. intros Hne. unfold content. simpl. by apply lookup_total_insert_ne. Qed.

Lemma content_unallocated st l : l ∉ dom (heap st) → content st l = [].
Proof.
  intros Hl. unfold content. rewrite lookup_total_alt.
  by rewrite (not_elem_of_dom_1 _ _ Hl).
Qed.

(** Allocating an empty list changes the content of no location: before
    the allocation the new location reads as the empty list already. *)
Lemma new_spec st :
  ∃ es, EntitySpace.new st = Return es (set_heap st (<[es := []]> (heap st))) ∧
        (es ∉ dom (heap st)) ∧
        ∀ l, content (set_heap st (<[es := []]> (heap st))) l = content st l.
Proof.
  exists (fresh (dom (heap st))). split; [done|].
  assert (Hf : fresh (dom (heap st)) ∉ dom (heap st)) by apply is_fresh.
  split; [done|]. intros l.
  destruct (decide (fresh (dom (heap st)) = l)) as [<-|Hne].
  - rewrite content_insert_eq. by rewrite content_unallocated.
  - by apply content_insert_ne.
Qed.

(** What [get_entity_space] does to the store, in one place. *)
Lemma get_entity_space_cases st key :
  (∃ es, layout_spaces st !! key = Some es ∧ get_entity_space key st = Return es st) ∨
  (∃ es, layout_spaces st !! key = None ∧ (es ∉ dom (heap st)) ∧
         get_entity_space key st =
           Return es (set_layout_spaces (set_heap st (<[es := []]> (heap st)))
                        (<[key := es]> (layout_spaces st)))).
Proof.
  unfold get_entity_space. destruct (layout_spaces st !! key) as [es|] eqn:Hk.
  - left. by exists es.
  - right. destruct (new_spec st) as (es & Hnew & Hfresh & _).
    exists es. split; [done|]. split; [done|].
    unfold bind. by rewrite Hnew.
Qed.

Lemma get_entity_space_frame st key :
  ∃ es st', get_entity_space key st = Return es st' ∧
    layout_spaces st' !! key = Some es ∧
    (∀ k, k ≠ key → layout_spaces st' !! k = layout_spaces st !! k) ∧
    (∀ k e, layout_spaces st !! k = Some e → layout_spaces st' !! k = Some e) ∧
    (∀ l, content st' l = content st l) ∧
    entitydb st' = entitydb st ∧ written st' = written st ∧
    dxfversion st' = dxfversion st ∧ get_key st' = get_key st.
Proof.
  destruct (get_entity_space_cases st key) as [(es & Hk & Hrun)|(es & Hk & Hfresh & Hrun)].
  - exists es, st. repeat split; try done.
  - eexists es, _. split; [exact Hrun|]. simpl.
    split; [apply lookup_insert_eq|].
    split; [intros k Hne; by apply lookup_insert_ne|].
    split.
    { intros k e He. rewrite lookup_insert_ne; [done|]. intros ->. congruence. }
    split; [|done].
    intros l. destruct (new_spec st) as (es' & _ & _ & _).
    destruct (decide (es = l)) as [<-|Hne].
    + unfold content. simpl. rewrite lookup_total_insert_eq.
      symmetry. by apply content_unallocated.
    + unfold content. simpl. by rewrite lookup_total_insert_ne.
Qed.

(** ** The two guards of [repair_owner_tags] *)

Lemma repair_legacy_returns fuel mk pk st :
  legacy (dxfversion st) = true → repair_owner_tags fuel mk pk st = Return tt st.
Proof. intros Hleg. unfold repair_owner_tags. by rewrite Hleg. Qed.

Lemma repair_without_temp_returns fuel mk pk st :
  layout_spaces st !! VInt 0 = None → repair_owner_tags fuel mk pk st = Return tt st.
Proof.
  intros Hno. unfold repair_owner_tags. rewrite Hno.
  by destruct (legacy (dxfversion st)).
Qed.

(** ** C2: when [repair_owner_tags] does nothing *)

(** C2. For every registry, [repair_owner_tags] returns without changing
    anything when the version is at or below ['AC1009'] or when key [0] is
    not registered. *)
Theorem repair_owner_tags_noop fuel mk pk st :
  legacy (dxfversion st) = true ∨ layout_spaces st !! VInt 0 = None →
  repair_owner_tags fuel mk pk st = Return tt st.
Proof.
  intros [Hleg|Hno]; unfold repair_owner_tags.
  - by rewrite Hleg.
  - rewrite Hno. by destruct (legacy (dxfversion st)).
Qed.

(** ** C6: [get_entity_space] *)

(** C6. [get_entity_space key] returns the space registered under [key]
    and leaves the store as it is; when there is none it allocates a new
    object (a location the heap does not hold yet), empty, registers it
    under [key] and returns it, changing no other key and no other object.
    A second call returns the same object and changes nothing. *)
Theorem get_entity_space_idempotent st key :
  ∃ es st',
    get_entity_space key st = Return es st' ∧
    (∀ e, layout_spaces st !! key = Some e → es = e ∧ st' = st) ∧
    (layout_spaces st !! key = None →
       (es ∉ dom (heap st)) ∧ content st' es = [] ∧
       layout_spaces st' = <[key := es]> (layout_spaces st) ∧
       heap st' = <[es := []]> (heap st)) ∧
    (∀ l, l ∈ dom (heap st) → heap st' !! l = heap st !! l) ∧
    (∀ k, k ≠ key → layout_spaces st' !! k = layout_spaces st !! k) ∧
    get_entity_space key st' = Return es st'.
Proof.
  destruct (get_entity_space_cases st key) as [(es & Hk & Hrun)|(es & Hk & Hfresh & Hrun)].
  - exists es, st. split; [done|].
    split; [intros e He; split; congruence|].
    split; [congruence|]. done.
  - eexists es, _. split; [exact Hrun|]. simpl.
    split; [congruence|].
    split.
    { intros _. split; [done|]. split; [|done].
      unfold content. simpl. apply lookup_total_insert_eq. }
    split.
    { intros l Hl. apply lookup_insert_ne. intros ->. done. }
    split; [intros k Hne; by apply lookup_insert_ne|].
    unfold get_entity_space. simpl. by rewrite lookup_insert_eq.
Qed.

(** ** C7: the key of a record and where [store_tags] files it *)

Lemma store_tags_run st t es st1 :
  get_entity_space (get_key st t) st = Return es st1 →
  store_tags t st =
    Return tt (set_heap st1 (<[es := content st1 es ++ [get_handle t]]> (heap st1))).
Proof.
  intros Hget. unfold store_tags, bind. rewrite Hget.
  unfold EntitySpace.store_tags, EntitySpace.append, bind, ret. done.
Qed.


(** C7. The key function is chosen by [__init__] from the version: tag 67
    of [noclass] (default [0]) at or below ['AC1009'], tag 330 of [noclass]
    (default [0]) above it.  [store_tags] appends the record's handle to
    the space registered under that key (creating it when needed) and to
    no other space, and leaves the key function and the version alone. *)
Theorem store_tags_files_under_key :
  (∀ db version t,
     get_key (init db version) t =
       if String.leb version "AC1009"
       then get_first_value_default (noclass t) 67 (VInt 0)
       else get_first_value_default (noclass t) 330 (VInt 0)) ∧
  (∀ st t, ∃ es st',
     store_tags t st = Return tt st' ∧
     layout_spaces st' !! get_key st t = Some es ∧
     content st' es = space_of st (get_key st t) ++ [get_handle t] ∧
     (∀ l, l ≠ es → content st' l = content st l) ∧
     (∀ k, k ≠ get_key st t → layout_spaces st' !! k = layout_spaces st !! k) ∧
     get_key st' = get_key st ∧ dxfversion st' = dxfversion st ∧
     entitydb st' = entitydb st).
Proof.
  split.
  - intros db version t. unfold init, legacy. simpl.
    by destruct (String.leb version "AC1009").
  - intros st t.
    destruct (get_entity_space_frame st (get_key st t))
      as (es & st1 & Hget & Hk & Hother & Hkeep & Hcont & Hdb & _ & Hver & Hgk).
    eexists es, _. split; [by apply store_tags_run|]. simpl.
    split; [done|].
    split.
    { rewrite content_insert_eq. f_equal. rewrite Hcont.
      unfold space_of.
      destruct (layout_spaces st !! get_key st t) as [e|] eqn:He.
      - apply Hkeep in He. congruence.
      - destruct (get_entity_space_cases st (get_key st t))
          as [(e & He' & _)|(e & _ & Hfresh & Hrun)]; [congruence|].
        rewrite Hrun in Hget. injection Hget as -> _.
        by apply content_unallocated. }
    split.
    { intros l Hne. rewrite content_insert_ne; [apply Hcont|done]. }
    done.
Qed.

(** ** C9: [delete_entity] *)

Lemma list_remove_first x l1 l2 :
  x ∉ l1 → list_remove x (l1 ++ x :: l2) = Some (l1 ++ l2).
Proof.
  induction l1 as [|y l1 IH]; intros Hnot; simpl.
  - by rewrite decide_True.
  - apply not_elem_of_cons in Hnot as [Hne Hnot].
    rewrite decide_False; [|done]. by rewrite IH.
Qed.

Lemma list_remove_absent x l : x ∉ l → list_remove x l = None.
Proof.
  induction l as [|y l IH]; intros Hnot; simpl; [done|].
  apply not_elem_of_cons in Hnot as [Hne Hnot].
  rewrite decide_False; [|done]. by rewrite IH.
Qed.

(** C9. When no space is registered under the record's key,
    [delete_entity] returns without raising and without changing the
    store.  It changes the store only when a space is registered under
    that key: then the first occurrence of the handle is removed from that
    space (and a handle that is not there raises [ValueError], the store
    unchanged). *)
Theorem delete_entity_absent_space st entity :
  layout_spaces st !! get_key st (tags entity) = None →
  delete_entity entity st = Return tt st ∧
  (∀ st0 entity0 o,
     delete_entity entity0 st0 = o → final_state o ≠ Some st0 →
     is_Some (layout_spaces st0 !! get_key st0 (tags entity0))) ∧
  (∀ st0 entity0 es l1 l2,
     layout_spaces st0 !! get_key st0 (tags entity0) = Some es →
     content st0 es = l1 ++ dxf_handle entity0 :: l2 →
     dxf_handle entity0 ∉ l1 →
     delete_entity entity0 st0 =
       Return tt (set_heap st0 (<[es := l1 ++ l2]> (heap st0)))) ∧
  (∀ st0 entity0 es,
     layout_spaces st0 !! get_key st0 (tags entity0) = Some es →
     dxf_handle entity0 ∉ content st0 es →
     delete_entity entity0 st0 = Raise ValueError st0).
Proof.
  intros Hno. split; [|split; [|split]].
  - unfold delete_entity. by rewrite Hno.
  - intros st0 entity0 o Hrun Hchanged. unfold delete_entity in Hrun.
    destruct (layout_spaces st0 !! get_key st0 (tags entity0)) as [es|]; [by eexists|].
    subst o. simpl in Hchanged. done.
  - intros st0 entity0 es l1 l2 Hes Hcont Hnot.
    unfold delete_entity, EntitySpace.delete_entity. rewrite Hes, Hcont.
    by rewrite list_remove_first.
  - intros st0 entity0 es Hes Hnot.
    unfold delete_entity, EntitySpace.delete_entity. rewrite Hes.
    by rewrite list_remove_absent.
Qed.

(** ** Loops over a list object *)

Lemma for_in_S fuel self i body st x :
  content st self !! i = Some x →
  for_in (S fuel) self i body st = bind (body x) (λ _, for_in fuel self (S i) body) st.
Proof. intros H. simpl. by rewrite H. Qed.

(** With such a body and enough fuel for the elements that are left, the
    loop is a traversal of the list as it was when the loop began. *)
Lemma for_in_for_each self body :
  keeps_content self body →
  ∀ fuel i st,
    length (content st self) - i < fuel →
    for_in fuel self i body st = for_each (drop i (content st self)) body st.
Proof.
  intros Hkeep. induction fuel as [|fuel IH]; intros i st Hfuel; [lia|].
  simpl. destruct (content st self !! i) as [x|] eqn:Hi.
  - rewrite (drop_S _ _ _ Hi). simpl. unfold bind.
    destruct (body x st) as [[] st'| |] eqn:Hbody; [|done|done].
    pose proof (Hkeep _ _ _ Hbody) as Hc.
    rewrite <- Hc. apply IH. rewrite Hc.
    apply lookup_lt_Some in Hi. lia.
  - apply lookup_ge_None in Hi. by rewrite drop_ge.
Qed.

(** Without assuming anything about the fuel: a loop that returned has
    done what the traversal does. *)
Lemma for_in_Return_for_each self body :
  keeps_content self body →
  ∀ fuel i st st',
    for_in fuel self i body st = Return tt st' →
    for_each (drop i (content st self)) body st = Return tt st'.
Proof.
  intros Hkeep. induction fuel as [|fuel IH]; intros i st st' Hrun; [done|].
  simpl in Hrun. destruct (content st self !! i) as [x|] eqn:Hi.
  - rewrite (drop_S _ _ _ Hi). simpl. unfold bind in *.
    destruct (body x st) as [[] st1| |] eqn:Hbody; [|done|done].
    rewrite <- (Hkeep _ _ _ Hbody). by apply IH.
  - apply lookup_ge_None in Hi. rewrite drop_ge; [|done]. done.
Qed.

(** A Hoare-style rule for [for_in]: an invariant indexed by the position
    of the iterator, and a postcondition for the exceptions the body
    raises. *)
Lemma for_in_rule (I : nat → state → Prop) (R : exn → state → Prop) self body :
  (∀ i x st, I i st → content st self !! i = Some x →
     match body x st with
     | Return _ st' => I (S i) st'
     | Raise e st' => R e st'
     | OutOfFuel => True
     end) →
  ∀ fuel i st, I i st →
    match for_in fuel self i body st with
    | Return _ st' => ∃ n, i ≤ n ∧ I n st' ∧ content st' self !! n = None
    | Raise e st' => R e st'
    | OutOfFuel => True
    end.
Proof.
  intros Hbody. induction fuel as [|fuel IH]; intros i st Hinv; [done|].
  simpl. destruct (content st self !! i) as [x|] eqn:Hi.
  - specialize (Hbody i x st Hinv Hi). unfold bind.
    destruct (body x st) as [[] st1|e st1|]; [|done|done].
    specialize (IH (S i) st1 Hbody).
    destruct (for_in fuel self (S i) body st1) as [[] st2|e st2|]; [|done|done].
    destruct IH as (n & Hle & Hn & Hend). exists n. split; [lia|done].
  - exists i. done.
Qed.

(** ** C5: [EntitySpace.write] *)

Lemma set_written_twice st w1 w2 :
  set_written (set_written st w1) w2 = set_written st w2.
Proof. done. Qed.

Lemma set_written_same st : set_written st (written st) = st.
Proof. by destruct st. Qed.

(** Following a chain with enough fuel writes the chain. *)
Lemma write_linked_chain st h l :
  chain (entitydb st) h l →
  ∀ fuel w, length l ≤ fuel →
    EntitySpace.write_linked fuel (Some h) (set_written st w) =
      Return tt (set_written st (w ++ l)).
Proof.
  induction 1 as [h t Hh Hlink|h t h' l Hh Hlink Hchain IH]; intros fuel w Hfuel.
  - destruct fuel as [|fuel]; [simpl in Hfuel; lia|].
    simpl. unfold bind, entitydb_getitem. simpl. rewrite Hh. simpl.
    rewrite Hlink. by destruct fuel.
  - destruct fuel as [|fuel]; [simpl in Hfuel; lia|].
    simpl. unfold bind, entitydb_getitem. simpl. rewrite Hh. simpl.
    rewrite Hlink. simpl in Hfuel.
    rewrite set_written_twice, (IH fuel (w ++ [t])); [|lia].
    by rewrite <- app_assoc.
Qed.

(** Conversely, whatever the fuel, a walk that returned has written a
    chain and nothing else. *)
Lemma write_linked_Return fuel :
  ∀ h st st',
    EntitySpace.write_linked fuel (Some h) st = Return tt st' →
    ∃ l, chain (entitydb st) h l ∧ st' = set_written st (written st ++ l).
Proof.
  induction fuel as [|fuel IH]; intros h st st' Hrun; [done|].
  simpl in Hrun. unfold bind, entitydb_getitem in Hrun.
  destruct (entitydb st !! h) as [t|] eqn:Hh; [|done]. simpl in Hrun.
  destruct (link t) as [h'|] eqn:Hlink.
  - apply IH in Hrun as (l & Hchain & ->). simpl in *.
    exists (t :: l). split; [by eapply chain_more|].
    rewrite <- app_assoc. done.
  - assert (st' = set_written st (written st ++ [t])) as ->.
    { destruct fuel; simpl in Hrun; unfold ret in Hrun; congruence. }
    exists [t]. split; [by apply chain_last|done].
Qed.

Lemma write_linked_keeps_content fuel self :
  keeps_content self (λ h, EntitySpace.write_linked fuel (Some h)).
Proof.
  intros x st st' Hrun. apply write_linked_Return in Hrun as (l & _ & ->). done.
Qed.

Lemma chain_deterministic db h l1 :
  chain db h l1 → ∀ l2, chain db h l2 → l1 = l2.
Proof.
  induction 1 as [h t Hh Hlink|h t h' l Hh Hlink Hchain IH]; intros l2 H2;
    inversion H2; subst; try congruence.
  assert (t0 = t) as -> by congruence.
  assert (h'0 = h') as -> by congruence.
  f_equal. by apply IH.
Qed.

Lemma for_each_write_chains st fuel hs chains :
  Forall2 (chain (entitydb st)) hs chains →
  Forall (λ l, length l ≤ fuel) chains →
  ∀ w, for_each hs (λ h, EntitySpace.write_linked fuel (Some h)) (set_written st w) =
         Return tt (set_written st (w ++ concat chains)).
Proof.
  induction 1 as [|h l hs chains Hchain Hrest IH]; intros Hlen w; simpl.
  - unfold ret. by rewrite app_nil_r.
  - apply Forall_cons in Hlen as [Hl Hlen]. unfold bind.
    rewrite (write_linked_chain st h l Hchain fuel w Hl).
    rewrite IH; [|done]. by rewrite app_assoc.
Qed.

Lemma for_each_write_Return fuel hs :
  ∀ st st',
    for_each hs (λ h, EntitySpace.write_linked fuel (Some h)) st = Return tt st' →
    ∃ chains, Forall2 (chain (entitydb st)) hs chains ∧
              st' = set_written st (written st ++ concat chains).
Proof.
  induction hs as [|h hs IH]; intros st st' Hrun; simpl in Hrun.
  - exists []. split; [constructor|]. simpl. rewrite app_nil_r.
    unfold ret in Hrun. injection Hrun as <-. by rewrite set_written_same.
  - unfold bind in Hrun.
    destruct (EntitySpace.write_linked fuel (Some h) st) as [[] st1| |] eqn:Hh;
      [|done|done].
    apply write_linked_Return in Hh as (l & Hchain & ->).
    apply IH in Hrun as (chains & Hchains & ->). simpl in *.
    exists (l :: chains). split; [by constructor|].
    simpl. by rewrite app_assoc.
Qed.

Lemma Forall2_chain_deterministic db hs c1 :
  Forall2 (chain db) hs c1 → ∀ c2, Forall2 (chain db) hs c2 → c1 = c2.
Proof.
  induction 1 as [|h l hs c1 Hchain Hrest IH]; intros c2 H2; inversion H2; subst; [done|].
  f_equal; [by eapply chain_deterministic|by apply IH].
Qed.

(** C5. [write] hands the tag writer, for the handles of the space in
    list order, the record of the handle followed by the records reached
    through [link], up to and including the first record whose [link] is
    [None].  When every handle of the space has such a finite chain the
    call returns (any fuel above the printed bound does), and a call that
    returns has written exactly these chains. *)
Theorem write_emits_link_chains st self chains :
  Forall2 (chain (entitydb st)) (content st self) chains →
  (∀ fuel, length (content st self) + length (concat chains) < fuel →
     EntitySpace.write fuel self st =
       Return tt (set_written st (written st ++ concat chains))) ∧
  (∀ fuel st', EntitySpace.write fuel self st = Return tt st' →
     st' = set_written st (written st ++ concat chains)).
Proof.
  intros Hchains. split.
  - intros fuel Hfuel. unfold EntitySpace.write.
    rewrite for_in_for_each; [|apply write_linked_keeps_content|lia].
    rewrite drop_0. rewrite <- (set_written_same st) at 2.
    rewrite (for_each_write_chains st fuel _ chains Hchains); [done|].
    apply Forall_forall. intros l Hl.
    assert (length l ≤ length (concat chains)); [|lia].
    clear -Hl. induction chains as [|c chains IH]; [by apply elem_of_nil in Hl|].
    simpl. rewrite length_app. apply elem_of_cons in Hl as [->|Hl]; [lia|].
    specialize (IH Hl). lia.
  - intros fuel st' Hrun. unfold EntitySpace.write in Hrun.
    apply for_in_Return_for_each in Hrun; [|apply write_linked_keeps_content].
    rewrite drop_0 in Hrun.
    apply for_each_write_Return in Hrun as (chains' & Hchains' & ->).
    by rewrite (Forall2_chain_deterministic _ _ _ Hchains' _ Hchains).
Qed.

(** ** C8: no handle in two spaces *)

Lemma NoDup_fmap_inj_on {A B} (f : A → B) (l : list A) x y :
  NoDup (f <$> l) → x ∈ l → y ∈ l → f x = f y → x = y.
Proof.
  induction l as [|a l IH]; intros Hnd Hx Hy Hxy; [by apply elem_of_nil in Hx|].
  rewrite fmap_cons in Hnd. apply NoDup_cons in Hnd as [Ha Hnd].
  apply elem_of_cons in Hx as [->|Hx]; apply elem_of_cons in Hy as [->|Hy].
  - done.
  - exfalso. apply Ha. rewrite Hxy. by apply list_elem_of_fmap_2.
  - exfalso. apply Ha. rewrite <- Hxy. by apply list_elem_of_fmap_2.
  - by apply IH.
Qed.

Lemma filed_init db version : filed (init db version) [].
Proof.
  unfold filed, heap_closed, no_alias, init. simpl.
  split; [apply map_Forall_empty|]. split; [apply map_Forall_empty|].
  split; [intros k es H; by rewrite lookup_empty in H|].
  intros r Hr. by apply elem_of_nil in Hr.
Qed.

(** One [store_tags] keeps the registry filed, with one more record. *)
Lemma store_tags_filed st stored r :
  filed st stored →
  ∃ st', store_tags r st = Return tt st' ∧ get_key st' = get_key st ∧
         filed st' (stored ++ [r]).
Proof.
  intros (Hclosed & Halias & Hcont & Hreg).
  destruct (get_entity_space_cases st (get_key st r))
    as [(es & Hk & Hrun)|(es & Hk & Hfresh & Hrun)].
  - eexists. split; [by apply store_tags_run|]. split; [done|].
    unfold filed, heap_closed, no_alias. simpl.
    split.
    { intros k e He. simpl. destruct (decide (es = e)) as [->|Hne].
      - rewrite lookup_insert_eq. by eexists.
      - rewrite lookup_insert_ne; [|done]. by apply (Hclosed k). }
    split; [done|]. split.
    + intros k e He. rewrite filter_app, fmap_app.
      destruct (decide (es = e)) as [->|Hne].
      * rewrite content_insert_eq.
        assert (get_key st r = k) as <- by (by apply (Halias _ _ Hk _ _ He)).
        rewrite (Hcont _ _ Hk). f_equal.
        rewrite filter_cons_True; [done|done].
      * rewrite content_insert_ne; [|done].
        rewrite (Hcont _ _ He).
        rewrite (filter_cons_False _ r); [by rewrite filter_nil, app_nil_r|].
        intros Heq. apply Hne. congruence.
    + intros r' [Hr'| ->%list_elem_of_singleton]%elem_of_app; [by apply Hreg|].
      by eexists.
  - assert (Hold : ∀ k e, layout_spaces st !! k = Some e → e ≠ es).
    { intros k e He ->. apply Hfresh, elem_of_dom. by apply (Hclosed k). }
    eexists. split; [by apply store_tags_run|]. split; [done|].
    unfold filed, heap_closed, no_alias. simpl.
    split.
    { intros k e He. simpl. destruct (decide (es = e)) as [->|Hne].
      - rewrite lookup_insert_eq. by eexists.
      - rewrite lookup_insert_ne; [|done]. rewrite lookup_insert_ne; [|done].
        apply lookup_insert_Some in He as [[_ ?]|[_ He]]; [done|].
        by apply (Hclosed k). }
    split.
    { intros k1 e1 H1 k2 e2 H2 <-.
      apply lookup_insert_Some in H1 as [[<- <-]|[Hne1 H1]];
        apply lookup_insert_Some in H2 as [[<- Heq]|[Hne2 H2]].
      - done.
      - by apply Hold in H2.
      - subst e1. by apply Hold in H1.
      - by apply (Halias _ _ H1 _ _ H2). }
    split.
    + intros k e He. rewrite filter_app, fmap_app.
      apply lookup_insert_Some in He as [[<- <-]|[Hne He]].
      * rewrite content_insert_eq.
        unfold content at 1. simpl. rewrite lookup_total_insert_eq.
        rewrite filter_cons_True; [|done].
        assert (filter (λ r0, get_key st r0 = get_key st r) stored = []) as ->; [|done].
        destruct (filter _ stored) as [|r' rest] eqn:Hf; [done|].
        assert (Hin : r' ∈ filter (λ r0, get_key st r0 = get_key st r) stored)
          by (rewrite Hf; left).
        apply list_elem_of_filter in Hin as [Hkey Hin].
        apply Hreg in Hin as [e He]. congruence.
      * rewrite content_insert_ne; [|by intros ->; apply Hold in He].
        unfold content. simpl.
        rewrite lookup_total_insert_ne; [|by intros ->; apply Hold in He].
        fold (content st e). rewrite (Hcont _ _ He).
        rewrite (filter_cons_False _ r); [by rewrite filter_nil, app_nil_r|].
        intros Heq. by apply Hne.
    + intros r' [Hr'| ->%list_elem_of_singleton]%elem_of_app.
      * apply Hreg in Hr' as [e He]. exists e.
        rewrite lookup_insert_ne; [done|]. intros Heq. congruence.
      * rewrite lookup_insert_eq. by eexists.
Qed.

Lemma stores_filed rs :
  ∀ st stored, filed st stored →
    ∃ st', stores rs st = Return tt st' ∧ get_key st' = get_key st ∧
           filed st' (stored ++ rs).
Proof.
  induction rs as [|r rs IH]; intros st stored Hfiled; simpl.
  - exists st. rewrite app_nil_r. done.
  - destruct (store_tags_filed st stored r Hfiled) as (st1 & Hrun & Hgk & Hfiled1).
    destruct (IH st1 _ Hfiled1) as (st' & Hrun' & Hgk' & Hfiled').
    exists st'. unfold bind. rewrite Hrun.
    split; [done|]. split; [congruence|].
    by rewrite <- app_assoc in Hfiled'.
Qed.

Lemma filed_space_of st stored k :
  filed st stored →
  space_of st k = [] ∨
  space_of st k = get_handle <$> filter (λ r, get_key st r = k) stored.
Proof.
  intros (_ & _ & Hcont & _). unfold space_of.
  destruct (layout_spaces st !! k) as [es|] eqn:Hk; [right|by left].
  by apply Hcont.
Qed.

Lemma filed_elem_of st stored k h :
  filed st stored → h ∈ space_of st k →
  ∃ r, r ∈ stored ∧ get_handle r = h ∧ get_key st r = k.
Proof.
  intros Hfiled Hh.
  destruct (filed_space_of st stored k Hfiled) as [Hnil|Heq].
  - rewrite Hnil in Hh. by apply elem_of_nil in Hh.
  - rewrite Heq in Hh. apply list_elem_of_fmap in Hh as (r & -> & Hr).
    apply list_elem_of_filter in Hr as [Hkey Hr]. by exists r.
Qed.

(** C8. Starting from a new registry, after any sequence of [store_tags]
    calls for records with pairwise different handles: the calls all
    return, no handle is in the spaces of two different keys (and
    different keys hold different space objects), every stored handle is
    in the space of its record's key, and no space holds a handle twice. *)
Theorem stores_handles_exclusive db version rs :
  NoDup (get_handle <$> rs) →
  ∃ st', stores rs (init db version) = Return tt st' ∧
    (∀ h k1 k2, h ∈ space_of st' k1 → h ∈ space_of st' k2 → k1 = k2) ∧
    no_alias st' ∧
    (∀ r, r ∈ rs → get_handle r ∈ space_of st' (get_key st' r)) ∧
    (∀ k, NoDup (space_of st' k)).
Proof.
  intros Hnd.
  destruct (stores_filed rs _ [] (filed_init db version)) as (st' & Hrun & Hgk & Hfiled).
  simpl in Hfiled. exists st'. split; [done|]. split; [|split; [|split]].
  - intros h k1 k2 H1 H2.
    destruct (filed_elem_of _ _ _ _ Hfiled H1) as (r1 & Hr1 & Hh1 & <-).
    destruct (filed_elem_of _ _ _ _ Hfiled H2) as (r2 & Hr2 & Hh2 & <-).
    f_equal. apply (NoDup_fmap_inj_on get_handle rs); [done..|congruence].
  - by destruct Hfiled as (_ & ? & _).
  - intros r Hr. destruct Hfiled as (_ & _ & Hcont & Hreg).
    destruct (Hreg r Hr) as [es Hes]. unfold space_of. rewrite Hes.
    rewrite (Hcont _ _ Hes). apply list_elem_of_fmap_2.
    apply list_elem_of_filter. done.
  - intros k. destruct (filed_space_of st' rs k Hfiled) as [->| ->]; [constructor|].
    apply NoDup_fmap_2_strong.
    + intros x y [_ Hx]%list_elem_of_filter [_ Hy]%list_elem_of_filter Hxy.
      by apply (NoDup_fmap_inj_on get_handle rs).
    + apply NoDup_filter. by apply NoDup_fmap_1 in Hnd.
Qed.

(** ** The two passes of [repair_owner_tags] *)

Lemma get_first_value_set_first ts code v :
  get_first_value (set_first ts code v) code = Some v.
Proof.
  induction ts as [|[c x] ts IH]; simpl.
  - by rewrite decide_True.
  - destruct (decide (c = code)) as [->|Hne]; simpl.
    + by rewrite decide_True.
    + by rewrite decide_False.
Qed.

Lemma tag_entity_cases mk pk es h st :
  (entitydb st !! h = None ∧ tag_entity mk pk es h st = Raise KeyError st) ∨
  (∃ t, entitydb st !! h = Some t ∧ get_subclass t "AcDbEntity" = None ∧
        tag_entity mk pk es h st = Raise DXFStructureError st) ∨
  (∃ t et, entitydb st !! h = Some t ∧ get_subclass t "AcDbEntity" = Some et ∧
           tag_entity mk pk es h st =
             Return tt (set_entitydb st
                          (<[h := set_noclass t (set_first (noclass t) 330
                                                   (resolved_key mk pk et))]>
                             (entitydb st)))).
Proof.
  unfold tag_entity, bind, EntitySpace.get_tags_by_handle, entitydb_getitem.
  destruct (entitydb st !! h) as [t|] eqn:Hh; [|by left].
  right. destruct (get_subclass t "AcDbEntity") as [et|] eqn:Het.
  - right. exists t, et. done.
  - left. exists t. done.
Qed.


(** Tagging one record leaves every record tagged that was, and tags the
    record. *)
Lemma tagged_after_step mk pk db h t et x :
  db !! h = Some t → get_subclass t "AcDbEntity" = Some et →
  (x = h ∨ tagged mk pk db x) →
  tagged mk pk
    (<[h := set_noclass t (set_first (noclass t) 330 (resolved_key mk pk et))]> db) x.
Proof.
  intros Hh Het Hx. destruct (decide (x = h)) as [->|Hne].
  - eexists _, et. rewrite lookup_insert_eq. split; [done|]. split; [done|].
    simpl. apply get_first_value_set_first.
  - destruct Hx as [?|(t' & et' & Hx & Het' & Ho)]; [done|].
    exists t', et'. by rewrite lookup_insert_ne.
Qed.

Lemma same_groups_after_step db0 db h t ts :
  same_groups db0 db → db !! h = Some t →
  same_groups db0 (<[h := set_noclass t ts]> db).
Proof.
  intros Hsame Hh x. destruct (decide (x = h)) as [->|Hne].
  - rewrite lookup_insert_eq. rewrite Hsame, Hh. done.
  - rewrite lookup_insert_ne; [apply Hsame|done].
Qed.

Lemma same_groups_get_subclass db db' h t t' name :
  same_groups db db' → db !! h = Some t → db' !! h = Some t' →
  get_subclass t' name = get_subclass t name.
Proof.
  intros Hsame Ht Ht'. specialize (Hsame h). rewrite Ht, Ht' in Hsame.
  simpl in Hsame. unfold get_subclass. congruence.
Qed.

(** The tag-fix pass: it never touches the spaces or the registry,
    whatever its outcome; when it returns, every handle of the space is
    tagged and no subclass group has changed. *)
Lemma update_entity_tags_spec fuel mk pk es st :
  match update_entity_tags fuel mk pk es st with
  | Return _ st' =>
      heap st' = heap st ∧ layout_spaces st' = layout_spaces st ∧
      same_groups (entitydb st) (entitydb st') ∧
      Forall (tagged mk pk (entitydb st')) (content st es)
  | Raise e st' =>
      heap st' = heap st ∧ layout_spaces st' = layout_spaces st ∧
      (e = KeyError ∨ e = DXFStructureError) ∧
      ∃ h, h ∈ content st es ∧ ¬ has_entity_group (entitydb st) h
  | OutOfFuel => True
  end.
Proof.
  unfold update_entity_tags.
  pose (I := λ (i : nat) (s : state),
    heap s = heap st ∧ layout_spaces s = layout_spaces st ∧
    same_groups (entitydb st) (entitydb s) ∧
    ∀ j h, j < i → content st es !! j = Some h → tagged mk pk (entitydb s) h).
  pose (R := λ (e : exn) (s : state),
    heap s = heap st ∧ layout_spaces s = layout_spaces st ∧
    (e = KeyError ∨ e = DXFStructureError) ∧
    ∃ h, h ∈ content st es ∧ ¬ has_entity_group (entitydb st) h).
  assert (Hstep : ∀ i x s, I i s → content s es !! i = Some x →
    match tag_entity mk pk es x s with
    | Return _ s' => I (S i) s'
    | Raise e s' => R e s'
    | OutOfFuel => True
    end).
  { intros i x s (Hheap & Hlay & Hsame & Htag) Hi.
    assert (Hi0 : content st es !! i = Some x).
    { unfold content in *. by rewrite <- Hheap. }
    assert (Hx0 : x ∈ content st es) by (apply list_elem_of_lookup; eauto).
    destruct (tag_entity_cases mk pk es x s)
      as [[Hn H]|[(t & Hx & Hnone & H)|(t & et & Hx & Het & H)]]; rewrite H.
    - split; [done|]. split; [done|]. split; [by left|].
      exists x. split; [done|]. intros (t0 & et0 & Ht0 & _).
      specialize (Hsame x). rewrite Ht0, Hn in Hsame. done.
    - split; [done|]. split; [done|]. split; [by right|].
      exists x. split; [done|]. intros (t0 & et0 & Ht0 & Het0).
      rewrite (same_groups_get_subclass _ _ _ _ _ _ Hsame Ht0 Hx) in Hnone. congruence.
    - unfold I. simpl. split; [done|]. split; [done|].
      split; [by apply same_groups_after_step|].
      intros j h Hj Hjh. apply tagged_after_step; [done..|].
      destruct (decide (j = i)) as [->|Hne].
      + left. congruence.
      + right. apply (Htag j); [lia|done]. }
  pose proof (for_in_rule I R es _ Hstep fuel 0 st) as Hrule.
  assert (Hinit : I 0 st).
  { unfold I. split; [done|]. split; [done|]. split; [done|]. intros j h Hj. lia. }
  specialize (Hrule Hinit).
  destruct (for_in fuel es 0 (tag_entity mk pk es) st) as [[] st'|e st'|]; [|done|done].
  destruct Hrule as (n & _ & (Hheap & Hlay & Hsame & Htag) & Hend).
  split; [done|]. split; [done|]. split; [done|].
  apply Forall_lookup. intros j h Hjh. apply (Htag j); [|done].
  unfold content in Hend. rewrite Hheap in Hend.
  apply lookup_ge_None in Hend. apply lookup_lt_Some in Hjh.
  unfold content in Hjh. lia.
Qed.

Lemma place_entity_cases mk pk mid pid es h st :
  (entitydb st !! h = None ∧ place_entity mk pk mid pid es h st = Raise KeyError st) ∨
  (∃ t, entitydb st !! h = Some t ∧ get_first_value (noclass t) 330 = None ∧
        place_entity mk pk mid pid es h st = Raise ValueError st) ∨
  (∃ t owner, entitydb st !! h = Some t ∧
        get_first_value (noclass t) 330 = Some owner ∧ owner ≠ mk ∧ owner ≠ pk ∧
        place_entity mk pk mid pid es h st = Raise DXFStructureError st) ∨
  (∃ t l, entitydb st !! h = Some t ∧ destination mk pk mid pid t = Some l ∧
        place_entity mk pk mid pid es h st =
          Return tt (set_heap st (<[l := content st l ++ [h]]> (heap st)))).
Proof.
  unfold place_entity, bind, EntitySpace.get_tags_by_handle, entitydb_getitem, destination.
  destruct (entitydb st !! h) as [t|] eqn:Hh; [|by left].
  right. destruct (get_first_value (noclass t) 330) as [owner|] eqn:Ho.
  - right. destruct (decide (owner = mk)) as [->|Hmk].
    + right. exists t, mid. rewrite Ho. by rewrite decide_True.
    + destruct (decide (owner = pk)) as [->|Hpk].
      * right. exists t, pid. rewrite Ho.
        rewrite decide_False; [|done]. by rewrite decide_True.
      * left. exists t, owner. done.
  - left. exists t. done.
Qed.

(** Appending to some space keeps what every space held, in place. *)
Lemma content_append st l h l' :
  ∃ extra, content (set_heap st (<[l := content st l ++ [h]]> (heap st))) l' =
           content st l' ++ extra ∧ (l = l' → extra = [h]) ∧ (l ≠ l' → extra = []).
Proof.
  destruct (decide (l = l')) as [<-|Hne].
  - exists [h]. rewrite content_insert_eq. done.
  - exists []. rewrite content_insert_ne; [|done]. rewrite app_nil_r. done.
Qed.

Lemma tagged_destination mk pk mid pid db h :
  tagged mk pk db h →
  ∃ t et, db !! h = Some t ∧ get_subclass t "AcDbEntity" = Some et ∧
    destination mk pk mid pid t =
      Some (if decide (resolved_key mk pk et = mk) then mid else pid).
Proof.
  intros (t & et & Hh & Het & Ho). exists t, et. split; [done|]. split; [done|].
  unfold destination. rewrite Ho.
  destruct (decide (resolved_key mk pk et = mk)) as [Heq|Hne]; [done|].
  unfold resolved_key in *.
  destruct (decide (paper_space_flag et = VInt 0)); [done|].
  by rewrite decide_True.
Qed.

(** The redistribution pass on a space whose handles all have somewhere to
    go never raises; when it returns, every handle the space held at the
    start is in the space of its destination. *)
Lemma distribute_spec fuel mk pk mid pid tid st :
  Forall (λ h, ∃ t l, entitydb st !! h = Some t ∧ destination mk pk mid pid t = Some l)
    (content st tid) →
  match distribute fuel mk pk mid pid tid st with
  | Return _ st' =>
      entitydb st' = entitydb st ∧ layout_spaces st' = layout_spaces st ∧
      ∀ h t l, h ∈ content st tid → entitydb st !! h = Some t →
               destination mk pk mid pid t = Some l → h ∈ content st' l
  | Raise _ _ => False
  | OutOfFuel => True
  end.
Proof.
  intros Hall. unfold distribute.
  pose (I := λ (i : nat) (s : state),
    entitydb s = entitydb st ∧ layout_spaces s = layout_spaces st ∧
    (∃ extra, content s tid = content st tid ++ extra) ∧
    Forall (λ h, ∃ t l, entitydb st !! h = Some t ∧
                        destination mk pk mid pid t = Some l) (content s tid) ∧
    ∀ j h t l, j < i → content st tid !! j = Some h → entitydb st !! h = Some t →
               destination mk pk mid pid t = Some l → h ∈ content s l).
  assert (Hstep : ∀ i x s, I i s → content s tid !! i = Some x →
    match place_entity mk pk mid pid tid x s with
    | Return _ s' => I (S i) s'
    | Raise e s' => False
    | OutOfFuel => True
    end).
  { intros i x s (Hdb & Hlay & (extra & Hext) & Hok & Hmem) Hi.
    assert (Hx : ∃ t l, entitydb st !! x = Some t ∧ destination mk pk mid pid t = Some l).
    { eapply (proj1 (Forall_lookup _ _) Hok); done. }
    destruct Hx as (t & l & Hxt & Hxl).
    destruct (place_entity_cases mk pk mid pid tid x s)
      as [[Hn _]|[(t' & Ht' & Hno & _)|[(t' & o & Ht' & Ho & Hmk & Hpk & _)|
          (t' & l' & Ht' & Hl' & H)]]].
    - rewrite Hdb in Hn. congruence.
    - rewrite Hdb in Ht'. assert (t' = t) as -> by congruence.
      unfold destination in Hxl. by rewrite Hno in Hxl.
    - rewrite Hdb in Ht'. assert (t' = t) as -> by congruence.
      unfold destination in Hxl. rewrite Ho in Hxl.
      rewrite decide_False in Hxl; [|done]. by rewrite decide_False in Hxl.
    - rewrite H. rewrite Hdb in Ht'. assert (t' = t) as -> by congruence.
      assert (l' = l) as -> by congruence.
      unfold I. simpl. split; [done|]. split; [done|].
      destruct (content_append s l x tid) as (ex & Hc & Hsame & Hdiff).
      split; [|split].
      + exists (extra ++ ex). rewrite Hc, Hext. by rewrite app_assoc.
      + rewrite Hc. apply Forall_app. split; [done|].
        destruct (decide (l = tid)) as [Heq|Hne].
        * rewrite (Hsame Heq). apply Forall_singleton. eauto.
        * rewrite (Hdiff Hne). constructor.
      + intros j h t0 l0 Hj Hjh Hht Hhl.
        destruct (content_append s l x l0) as (ex0 & Hc0 & Hsame0 & _).
        rewrite Hc0. apply elem_of_app.
        destruct (decide (j = i)) as [->|Hne].
        * assert (h = x) as ->.
          { rewrite Hext in Hi. rewrite lookup_app_l in Hi; [congruence|].
            by apply lookup_lt_Some in Hjh. }
          assert (t0 = t) as -> by congruence.
          assert (l0 = l) as -> by congruence.
          right. rewrite Hsame0; [left|done].
        * left. apply (Hmem j h t0); [lia|done..]. }
  pose proof (for_in_rule I (λ _ _, False) tid _ Hstep fuel 0 st) as Hrule.
  assert (Hinit : I 0 st).
  { unfold I. split; [done|]. split; [done|].
    split; [exists []; by rewrite app_nil_r|]. split; [done|]. intros; lia. }
  specialize (Hrule Hinit).
  destruct (for_in fuel tid 0 _ st) as [[] st'|e st'|]; [|done|done].
  destruct Hrule as (n & _ & (Hdb & Hlay & (extra & Hext) & _ & Hmem) & Hend).
  split; [done|]. split; [done|].
  intros h t l Hh Hht Hhl. apply list_elem_of_lookup in Hh as [j Hj].
  apply (Hmem j h t); [|done..].
  apply lookup_lt_Some in Hj. apply lookup_ge_None in Hend.
  rewrite Hext, length_app in Hend. lia.
Qed.

(** When a handle of the space has the space itself as destination, the
    pass appends to the list it runs over and the iterator never reaches
    the end: no amount of fuel makes it return. *)
Lemma distribute_alias_no_return fuel mk pk mid pid tid st x t :
  x ∈ content st tid → entitydb st !! x = Some t →
  destination mk pk mid pid t = Some tid →
  ∀ st', distribute fuel mk pk mid pid tid st ≠ Return tt st'.
Proof.
  intros Hx Hxt Hdest st' Hrun. unfold distribute in Hrun.
  pose (I := λ (i : nat) (s : state),
    entitydb s = entitydb st ∧ ∃ j, i ≤ j ∧ content s tid !! j = Some x).
  assert (Hstep : ∀ i y s, I i s → content s tid !! i = Some y →
    match place_entity mk pk mid pid tid y s with
    | Return _ s' => I (S i) s'
    | Raise e s' => True
    | OutOfFuel => True
    end).
  { intros i y s (Hdb & j & Hij & Hj) Hi.
    destruct (place_entity_cases mk pk mid pid tid y s)
      as [[_ H]|[(t' & _ & _ & H)|[(t' & o & _ & _ & _ & _ & H)|
          (t' & l' & Ht' & Hl' & H)]]]; rewrite H; try done.
    unfold I. simpl. split; [done|].
    destruct (content_append s l' y tid) as (ex & Hc & Hsame & _).
    destruct (decide (j = i)) as [->|Hne].
    - assert (y = x) as -> by congruence.
      rewrite Hdb in Ht'. assert (t' = t) as -> by congruence.
      assert (l' = tid) as -> by congruence.
      exists (length (content s tid)). split.
      + apply lookup_lt_Some in Hi. lia.
      + rewrite Hc, (Hsame eq_refl). rewrite lookup_app_r; [|lia].
        by rewrite Nat.sub_diag.
    - exists j. split; [lia|]. rewrite Hc. rewrite lookup_app_l; [done|].
      by apply lookup_lt_Some in Hj. }
  pose proof (for_in_rule I (λ _ _, True) tid _ Hstep fuel 0 st) as Hrule.
  rewrite Hrun in Hrule.
  destruct Hrule as (n & _ & (_ & j & Hnj & Hj) & Hend).
  { split; [done|]. apply list_elem_of_lookup in Hx as [j Hj]. exists j.
    split; [lia|done]. }
  apply lookup_ge_None in Hend. apply lookup_lt_Some in Hj. lia.
Qed.

(** [repair_owner_tags] past its two guards: the two spaces are looked up
    or created, which changes the content of no space and keeps key [0],
    and then the two passes and the [del] run. *)
Lemma repair_owner_tags_run fuel mk pk st tid :
  legacy (dxfversion st) = false → layout_spaces st !! VInt 0 = Some tid →
  ∃ mid pid st2,
    repair_owner_tags fuel mk pk st =
      bind (update_entity_tags fuel mk pk tid)
        (λ _, bind (distribute fuel mk pk mid pid tid)
                (λ _, del_layout_space (VInt 0))) st2 ∧
    layout_spaces st2 !! mk = Some mid ∧ layout_spaces st2 !! pk = Some pid ∧
    layout_spaces st2 !! VInt 0 = Some tid ∧
    (∀ l, content st2 l = content st l) ∧ entitydb st2 = entitydb st ∧
    (layout_spaces st !! mk = Some mid ∨ mid ∉ dom (heap st)) ∧
    (layout_spaces st !! pk = Some pid ∨ pid = mid ∨ pid ∉ dom (heap st)).
Proof.
  intros Hleg Htid. unfold repair_owner_tags. rewrite Hleg, Htid.
  destruct (get_entity_space_frame st mk)
    as (mid & st1 & Hg1 & Hmk & Hother1 & Hkeep1 & Hcont1 & Hdb1 & _).
  destruct (get_entity_space_frame st1 pk)
    as (pid & st2 & Hg2 & Hpk & Hother2 & Hkeep2 & Hcont2 & Hdb2 & _).
  exists mid, pid, st2. unfold bind at 1. rewrite Hg1. unfold bind at 1. rewrite Hg2.
  split; [done|]. split; [by apply Hkeep2|]. split; [done|].
  split; [by apply Hkeep2, Hkeep1|].
  split; [intros l; by rewrite Hcont2, Hcont1|]. split; [congruence|].
  assert (Hmid : layout_spaces st !! mk = Some mid ∨ mid ∉ dom (heap st)).
  { destruct (get_entity_space_cases st mk) as [(e & He & Hr)|(e & He & Hf & Hr)];
      assert (e = mid) as -> by congruence; [by left|by right]. }
  split; [done|].
  destruct (get_entity_space_cases st1 pk) as [(e & He & Hr)|(e & He & Hf & Hr)];
    rewrite Hr in Hg2; injection Hg2 as -> _.
  - destruct (decide (pk = mk)) as [->|Hne].
    + right. left. congruence.
    + left. by rewrite <- (Hother1 pk Hne).
  - right. right. intros Hin. apply Hf.
    destruct (get_entity_space_cases st mk) as [(e' & He' & Hr')|(e' & He' & Hf' & Hr')];
      rewrite Hr' in Hg1; injection Hg1 as _ <-; [done|].
    simpl. rewrite dom_insert_L. apply elem_of_union. by right.
Qed.

(** The two passes and the [del], from a store in which key [0] holds
    [tid].  A run that returns has removed key [0] and nothing else from
    the registry, and has put every handle of the temporary space into the
    space object chosen by its paper-space flag, which is not the
    temporary space itself.  A run that raises has changed neither the
    registry nor any space. *)
Lemma repair_passes fuel mk pk mid pid tid st2 :
  layout_spaces st2 !! VInt 0 = Some tid →
  match bind (update_entity_tags fuel mk pk tid)
          (λ _, bind (distribute fuel mk pk mid pid tid)
                  (λ _, del_layout_space (VInt 0))) st2 with
  | Return _ st' =>
      layout_spaces st' = delete (VInt 0) (layout_spaces st2) ∧
      ∀ h t et, h ∈ content st2 tid → entitydb st2 !! h = Some t →
        get_subclass t "AcDbEntity" = Some et →
        let dest := if decide (resolved_key mk pk et = mk) then mid else pid in
        h ∈ content st' dest ∧ dest ≠ tid
  | Raise e st' =>
      heap st' = heap st2 ∧ layout_spaces st' = layout_spaces st2 ∧
      (e = KeyError ∨ e = DXFStructureError) ∧
      ∃ h, h ∈ content st2 tid ∧ ¬ has_entity_group (entitydb st2) h
  | OutOfFuel => True
  end.
Proof.
  intros Htid. unfold bind at 1.
  pose proof (update_entity_tags_spec fuel mk pk tid st2) as Hpass1.
  destruct (update_entity_tags fuel mk pk tid st2) as [[] st3|e st3|]; [| |done].
  2:{ exact Hpass1. }
  destruct Hpass1 as (Hheap3 & Hlay3 & Hsame & Htagged).
  assert (Hc3 : content st3 tid = content st2 tid) by (unfold content; by rewrite Hheap3).
  assert (Hall : Forall (λ h, ∃ t l, entitydb st3 !! h = Some t ∧
                                     destination mk pk mid pid t = Some l)
                   (content st3 tid)).
  { rewrite Hc3. eapply Forall_impl; [exact Htagged|].
    intros h Hh. destruct (tagged_destination mk pk mid pid _ _ Hh)
      as (t & et & Ht & _ & Hd). eauto. }
  unfold bind at 1.
  pose proof (distribute_spec fuel mk pk mid pid tid st3 Hall) as Hpass2.
  destruct (distribute fuel mk pk mid pid tid st3) as [[] st4|e st4|] eqn:Hrun2;
    [|done|done].
  destruct Hpass2 as (Hdb4 & Hlay4 & Hmem).
  cbv beta. unfold del_layout_space. rewrite Hlay4, Hlay3, Htid. simpl.
  split; [done|].
  intros h t et Hh Ht Het.
  assert (Hh3 : h ∈ content st3 tid) by (by rewrite Hc3).
  assert (Hht : tagged mk pk (entitydb st3) h).
  { eapply (proj1 (Forall_forall _ _) Htagged); done. }
  destruct (tagged_destination mk pk mid pid _ _ Hht) as (t3 & et3 & Ht3 & Het3 & Hd3).
  assert (et3 = et) as ->.
  { rewrite (same_groups_get_subclass _ _ _ _ _ _ Hsame Ht Ht3) in Het3. congruence. }
  split.
  - unfold content. simpl. by apply (Hmem h t3).
  - intros Heq. rewrite Heq in Hd3.
    by apply (distribute_alias_no_return fuel mk pk mid pid tid st3 h t3 Hh3 Ht3 Hd3 st4).
Qed.

(** ** C1: what a successful repair leaves *)

(** C1. With a version above ['AC1009'] and a temporary space under key
    [0]: when [repair_owner_tags] returns, key [0] is no longer registered,
    every handle of the temporary space whose record had paper-space flag
    [0] (tag 67 of the [AcDbEntity] group, default [0]) is in the space
    registered under the model key, and every handle whose flag was not
    [0] is in the space registered under the paper key. *)
Theorem repair_owner_tags_correct fuel mk pk st st' tid :
  legacy (dxfversion st) = false →
  layout_spaces st !! VInt 0 = Some tid →
  repair_owner_tags fuel mk pk st = Return tt st' →
  layout_spaces st' !! VInt 0 = None ∧
  ∀ h t et, h ∈ content st tid → entitydb st !! h = Some t →
    get_subclass t "AcDbEntity" = Some et →
    (get_first_value_default et 67 (VInt 0) = VInt 0 → h ∈ space_of st' mk) ∧
    (get_first_value_default et 67 (VInt 0) ≠ VInt 0 → h ∈ space_of st' pk).
Proof.
  intros Hleg Htid Hrun.
  destruct (repair_owner_tags_run fuel mk pk st tid Hleg Htid)
    as (mid & pid & st2 & Heq & Hmk & Hpk & Htid2 & Hcont & Hdb & _).
  rewrite Heq in Hrun.
  pose proof (repair_passes fuel mk pk mid pid tid st2 Htid2) as Hpasses.
  rewrite Hrun in Hpasses. destruct Hpasses as (Hlay & Hplaced).
  split; [rewrite Hlay; apply lookup_delete_eq|].
  intros h t et Hh Ht Het.
  rewrite <- Hcont in Hh. rewrite <- Hdb in Ht.
  destruct (Hplaced h t et Hh Ht Het) as (Hin & Hne).
  assert (Hspace : ∀ k es, layout_spaces st2 !! k = Some es → es ≠ tid →
                           h ∈ content st' es → h ∈ space_of st' k).
  { intros k es Hk Hes Hes'. unfold space_of. rewrite Hlay.
    rewrite lookup_delete_ne; [by rewrite Hk|].
    intros <-. congruence. }
  unfold resolved_key, paper_space_flag in *.
  destruct (decide (get_first_value_default et 67 (VInt 0) = VInt 0)) as [Hzero|Hnz].
  - split; [intros _|done].
    rewrite decide_True in Hin, Hne; [|done..].
    by apply (Hspace mk mid).
  - split; [done|intros _].
    destruct (decide (pk = mk)) as [Hsame|Hdiff].
    + assert (mid = pid) as <- by congruence.
      by apply (Hspace pk mid).
    + by apply (Hspace pk pid).
Qed.

(** ** C10: what a failed repair leaves *)

(** C10. When [repair_owner_tags] raises (it raises [DXFStructureError]
    for a record without its [AcDbEntity] group, or [KeyError] for a handle
    the database does not hold; the invalid-owner branch of [distribute] is
    never reached after the tag-fix pass), key [0] is still registered to
    the same space object and the handle list of that space is what it was
    before the call: key [0] is deleted only on the path that returns. *)
Theorem repair_owner_tags_failure_keeps_temp fuel mk pk st e st' :
  repair_owner_tags fuel mk pk st = Raise e st' →
  (e = KeyError ∨ e = DXFStructureError) ∧
  ∃ tid, layout_spaces st !! VInt 0 = Some tid ∧
         layout_spaces st' !! VInt 0 = Some tid ∧
         content st' tid = content st tid.
Proof.
  intros Hrun.
  destruct (legacy (dxfversion st)) eqn:Hleg.
  { rewrite repair_legacy_returns in Hrun; done. }
  destruct (layout_spaces st !! VInt 0) as [tid|] eqn:Htid.
  2:{ rewrite repair_without_temp_returns in Hrun; done. }
  destruct (repair_owner_tags_run fuel mk pk st tid Hleg Htid)
    as (mid & pid & st2 & Heq & Hmk & Hpk & Htid2 & Hcont & Hdb & _).
  rewrite Heq in Hrun.
  pose proof (repair_passes fuel mk pk mid pid tid st2 Htid2) as Hpasses.
  rewrite Hrun in Hpasses. destruct Hpasses as (Hheap & Hlay & Hexn & _).
  split; [done|]. exists tid. split; [done|]. split; [by rewrite Hlay|].
  rewrite <- Hcont. unfold content. by rewrite Hheap.
Qed.

(** ** The invalid-owner branch of [distribute] *)


(** The tag-fix pass leaves every record of the space readable by
    [distribute]: this is the state of the database in which the
    redistribution pass of [repair_owner_tags] always starts. *)
Lemma tagged_has_owner mk pk db h : tagged mk pk db h → has_owner db h.
Proof. intros (t & et & Hh & _ & Ho). by exists t, (resolved_key mk pk et). Qed.

(** ** Loops that end, and one that does not *)


Lemma for_each_keeps_content self body :
  keeps_content self body →
  ∀ l st st', for_each l body st = Return tt st' → content st' self = content st self.
Proof.
  intros Hkeep. induction l as [|x l IH]; intros st st' Hrun; simpl in Hrun.
  - unfold ret in Hrun. by injection Hrun as <-.
  - unfold bind in Hrun.
    destruct (body x st) as [[] s|e s|] eqn:Hx; [|done|done].
    rewrite (IH _ _ Hrun). by apply (Hkeep x st).
Qed.



Lemma place_entity_completes mk pk mid pid es x st :
  is_Some (final_state (place_entity mk pk mid pid es x st)).
Proof.
  destruct (place_entity_cases mk pk mid pid es x st)
    as [[_ H]|[(t & _ & _ & H)|[(t & o & _ & _ & _ & _ & H)|(t & l & _ & _ & H)]]];
    rewrite H; by eexists.
Qed.

Lemma destination_cases mk pk mid pid t l :
  destination mk pk mid pid t = Some l → l = mid ∨ l = pid.
Proof.
  unfold destination. destruct (get_first_value (noclass t) 330) as [o|]; [|done].
  destruct (decide (o = mk)); [intros [= <-]; by left|].
  destruct (decide (o = pk)); [intros [= <-]; by right|done].
Qed.

Lemma place_entity_keeps_content mk pk mid pid es tid :
  mid ≠ tid → pid ≠ tid → keeps_content tid (place_entity mk pk mid pid es).
Proof.
  intros Hmid Hpid x st st' Hrun.
  destruct (place_entity_cases mk pk mid pid es x st)
    as [[_ H]|[(t & _ & _ & H)|[(t & o & _ & _ & _ & _ & H)|(t & l & _ & Hl & H)]]];
    rewrite H in Hrun; try done.
  injection Hrun as <-. apply content_insert_ne.
  apply destination_cases in Hl as [->| ->]; done.
Qed.

(** [write] is the other loop that need not end: a record whose link
    leads back to itself is written again and again. *)
Lemma write_linked_cycle fuel :
  ∀ st, entitydb st !! "L" = Some rec_loop →
        EntitySpace.write_linked fuel (Some "L") st = OutOfFuel.
Proof.
  induction fuel as [|fuel IH]; intros st Hdb; [done|].
  simpl. unfold bind, entitydb_getitem. rewrite Hdb. simpl. by apply IH.
Qed.

Lemma write_cyclic_link_diverges fuel : EntitySpace.write fuel 0 st_loop = OutOfFuel.
Proof.
  destruct fuel as [|fuel]; [done|].
  unfold EntitySpace.write.
  rewrite (for_in_S _ _ _ _ _ "L"); [|vm_compute; reflexivity].
  unfold bind. rewrite write_linked_cycle; [done|]. vm_compute. reflexivity.
Qed.

(** ** The scenario of the specification, and instances of the theorems *)

(** Three records without owner tag and with flags 0, 1, 0 are stored and
    land under key [0]; after [repair_owner_tags(100, 200)] the model
    space holds the first and third handle, the paper space the second,
    and key [0] is gone. *)
Example repair_scenario :
  space_of st_ABC (VInt 0) = ["A"; "B"; "C"] ∧
  repair_owner_tags 4 (VInt 100) (VInt 200) st_ABC = Return tt st_repaired ∧
  space_of st_repaired (VInt 100) = ["A"; "C"] ∧
  space_of st_repaired (VInt 200) = ["B"] ∧
  layout_spaces st_repaired !! VInt 0 = None.
Proof.
  split; [vm_compute; reflexivity|].
  split; [vm_compute; reflexivity|].
  split; [vm_compute; reflexivity|].
  split; [vm_compute; reflexivity|].
  vm_compute. reflexivity.
Qed.

Lemma repair_owner_tags_correct_witness :
  legacy (dxfversion st_ABC) = false ∧
  layout_spaces st_ABC !! VInt 0 = Some 0 ∧
  repair_owner_tags 4 (VInt 100) (VInt 200) st_ABC = Return tt st_repaired ∧
  layout_spaces st_repaired !! VInt 0 = None ∧
  ∀ h t et, h ∈ content st_ABC 0 → entitydb st_ABC !! h = Some t →
    get_subclass t "AcDbEntity" = Some et →
    (get_first_value_default et 67 (VInt 0) = VInt 0 →
       h ∈ space_of st_repaired (VInt 100)) ∧
    (get_first_value_default et 67 (VInt 0) ≠ VInt 0 →
       h ∈ space_of st_repaired (VInt 200)).
Proof.
  assert (H1 : legacy (dxfversion st_ABC) = false) by (vm_compute; reflexivity).
  assert (H2 : layout_spaces st_ABC !! VInt 0 = Some 0) by (vm_compute; reflexivity).
  assert (H3 : repair_owner_tags 4 (VInt 100) (VInt 200) st_ABC = Return tt st_repaired)
    by (vm_compute; reflexivity).
  split; [exact H1|]. split; [exact H2|]. split; [exact H3|].
  exact (repair_owner_tags_correct 4 (VInt 100) (VInt 200) st_ABC st_repaired 0 H1 H2 H3).
Defined.

Lemma repair_owner_tags_noop_witness :
  (legacy (dxfversion (init db_ABC "AC1009")) = true ∨
   layout_spaces (init db_ABC "AC1009") !! VInt 0 = None) ∧
  repair_owner_tags 4 (VInt 100) (VInt 200) (init db_ABC "AC1009") =
    Return tt (init db_ABC "AC1009").
Proof.
  assert (H : legacy (dxfversion (init db_ABC "AC1009")) = true ∨
              layout_spaces (init db_ABC "AC1009") !! VInt 0 = None)
    by (left; vm_compute; reflexivity).
  split; [exact H|].
  exact (repair_owner_tags_noop 4 (VInt 100) (VInt 200) (init db_ABC "AC1009") H).
Defined.




Lemma st_forced_content : content st_forced 0 = ["A"; "B"; "C"].
Proof. vm_compute. reflexivity. Qed.

Lemma st_forced_has_owner h :
  h ∈ content st_forced 0 → has_owner (entitydb st_forced) h.
Proof.
  rewrite st_forced_content. intros Hh.
  apply elem_of_cons in Hh as [->|Hh].
  { eexists _, _. split; vm_compute; reflexivity. }
  apply elem_of_cons in Hh as [->|Hh].
  { eexists _, _. split; vm_compute; reflexivity. }
  apply elem_of_cons in Hh as [->|Hh].
  { eexists _, _. split; vm_compute; reflexivity. }
  by apply elem_of_nil in Hh.
Qed.

Lemma write_emits_link_chains_witness :
  Forall2 (chain (entitydb st_chain)) (content st_chain 0) [[rec_poly; rec_vertex]] ∧
  EntitySpace.write 4 0 st_chain =
    Return tt (set_written st_chain
                 (written st_chain ++ concat [[rec_poly; rec_vertex]])).
Proof.
  assert (H1 : Forall2 (chain (entitydb st_chain)) (content st_chain 0)
                 [[rec_poly; rec_vertex]]).
  { assert (content st_chain 0 = ["P"]) as -> by (vm_compute; reflexivity).
    constructor; [|constructor].
    apply (chain_more _ "P" rec_poly "V").
    - vm_compute. reflexivity.
    - reflexivity.
    - apply chain_last.
      + vm_compute. reflexivity.
      + reflexivity. }
  assert (H2 : length (content st_chain 0) + length (concat [[rec_poly; rec_vertex]]) < 4).
  { assert (content st_chain 0 = ["P"]) as -> by (vm_compute; reflexivity).
    simpl. lia. }
  split; [exact H1|].
  exact (proj1 (write_emits_link_chains st_chain 0 [[rec_poly; rec_vertex]] H1) 4 H2).
Defined.

Lemma stores_handles_exclusive_witness :
  NoDup (get_handle <$> [rec_A; rec_B; rec_C]) ∧
  ∃ st', stores [rec_A; rec_B; rec_C] (init db_ABC "AC1018") = Return tt st' ∧
    (∀ h k1 k2, h ∈ space_of st' k1 → h ∈ space_of st' k2 → k1 = k2) ∧
    no_alias st' ∧
    (∀ r, r ∈ [rec_A; rec_B; rec_C] → get_handle r ∈ space_of st' (get_key st' r)) ∧
    (∀ k, NoDup (space_of st' k)).
Proof.
  assert (H : NoDup (get_handle <$> [rec_A; rec_B; rec_C])).
  { apply (bool_decide_unpack _). vm_compute. exact I. }
  split; [exact H|].
  exact (stores_handles_exclusive db_ABC "AC1018" [rec_A; rec_B; rec_C] H).
Defined.

Lemma delete_entity_absent_space_witness :
  layout_spaces (init db_ABC "AC1018")
    !! get_key (init db_ABC "AC1018") (tags (mkEntity rec_A)) = None ∧
  delete_entity (mkEntity rec_A) (init db_ABC "AC1018") =
    Return tt (init db_ABC "AC1018").
Proof.
  assert (H : layout_spaces (init db_ABC "AC1018")
                !! get_key (init db_ABC "AC1018") (tags (mkEntity rec_A)) = None).
  { vm_compute. reflexivity. }
  split; [exact H|].
  exact (proj1 (delete_entity_absent_space (init db_ABC "AC1018") (mkEntity rec_A) H)).
Defined.

Lemma repair_owner_tags_failure_keeps_temp_witness :
  repair_owner_tags 5 (VInt 100) (VInt 200) st_bare =
    Raise DXFStructureError
      (after (repair_owner_tags 5 (VInt 100) (VInt 200)) st_bare) ∧
  (DXFStructureError = KeyError ∨ DXFStructureError = DXFStructureError) ∧
  ∃ tid, layout_spaces st_bare !! VInt 0 = Some tid ∧
         layout_spaces (after (repair_owner_tags 5 (VInt 100) (VInt 200)) st_bare)
           !! VInt 0 = Some tid ∧
         content (after (repair_owner_tags 5 (VInt 100) (VInt 200)) st_bare) tid =
           content st_bare tid.
Proof.
  assert (H : repair_owner_tags 5 (VInt 100) (VInt 200) st_bare =
              Raise DXFStructureError
                (after (repair_owner_tags 5 (VInt 100) (VInt 200)) st_bare)).
  { vm_compute. reflexivity. }
  split; [exact H|].
  exact (repair_owner_tags_failure_keeps_temp 5 (VInt 100) (VInt 200) st_bare
           DXFStructureError _ H).
Defined.

(** * Further properties of the code *)

(** ** [EntitySpace]: storing and deleting *)

Lemma list_remove_Some x l l' :
  list_remove x l = Some l' →
  ∃ l1 l2, l = l1 ++ x :: l2 ∧ (x ∉ l1) ∧ l' = l1 ++ l2.
Proof.
  revert l'. induction l as [|y l IH]; intros l' Hrm; simpl in Hrm; [done|].
  destruct (decide (y = x)) as [->|Hne].
  - injection Hrm as <-. exists [], l. split; [done|]. split; [|done].
    apply not_elem_of_nil.
  - destruct (list_remove x l) as [r|] eqn:Hr; [|done].
    injection Hrm as <-. destruct (IH r eq_refl) as (l1 & l2 & -> & Hnot & ->).
    exists (y :: l1), l2. split; [done|]. split; [|done].
    apply not_elem_of_cons. split; [congruence|done].
Qed.

(** X1. Storing a record in a space and then deleting its entity from the
    same space always returns.  When the handle was not in the space, the
    space holds what it held before; when it was, the occurrence that is
    removed is the earlier one, not the one just appended.  No other
    space changes. *)
Theorem entity_space_store_then_delete st self t :
  ∃ st',
    bind (EntitySpace.store_tags self t)
      (λ _, EntitySpace.delete_entity self (mkEntity t)) st = Return tt st' ∧
    (∀ l, l ≠ self → content st' l = content st l) ∧
    entitydb st' = entitydb st ∧ layout_spaces st' = layout_spaces st ∧
    (((get_handle t ∉ content st self) ∧ content st' self = content st self) ∨
     (∃ l1 l2, content st self = l1 ++ get_handle t :: l2 ∧
               (get_handle t ∉ l1) ∧
               content st' self = l1 ++ l2 ++ [get_handle t])).
Proof.
  unfold bind, EntitySpace.store_tags, EntitySpace.append, EntitySpace.delete_entity,
    bind, ret, dxf_handle. simpl.
  rewrite content_insert_eq.
  destruct (decide (get_handle t ∈ content st self)) as [Hin|Hnot].
  - apply list_elem_of_split_l in Hin as (l1 & l2 & Heq & Hl1).
    rewrite Heq. rewrite <- app_assoc. simpl.
    rewrite (list_remove_first _ l1 (l2 ++ [get_handle t]) Hl1).
    eexists. split; [done|]. simpl. split; [|split; [done|split; [done|]]].
    + intros l Hne. unfold content. simpl.
      rewrite lookup_total_insert_ne; [|done]. by rewrite lookup_total_insert_ne.
    + right. exists l1, l2. split; [done|]. split; [done|].
      unfold content. simpl. by rewrite lookup_total_insert_eq.
  - rewrite <- (app_nil_r (content st self ++ [get_handle t])).
    rewrite <- app_assoc. simpl.
    rewrite (list_remove_first _ (content st self) [] Hnot).
    eexists. split; [done|]. simpl. split; [|split; [done|split; [done|]]].
    + intros l Hne. unfold content. simpl.
      rewrite lookup_total_insert_ne; [|done]. by rewrite lookup_total_insert_ne.
    + left. split; [done|]. unfold content at 1. simpl.
      rewrite lookup_total_insert_eq. by rewrite app_nil_r.
Qed.

(** ** [LayoutSpaces]: storing and deleting *)


(** ** [delete_entity_space] and [delete_all_entities] *)

(** X3. [delete_entity_space] raises [KeyError] for a key that is not
    registered and changes nothing.  For a registered key it empties the
    space object and removes the key: [self[key]] then raises [KeyError],
    no other key and no other object changes, and the database is not
    touched.  A later [get_entity_space] for the key returns a different,
    empty object. *)
Theorem delete_entity_space_spec st key :
  (layout_spaces st !! key = None →
     delete_entity_space key st = Raise KeyError st) ∧
  (∀ es, layout_spaces st !! key = Some es →
     ∃ st', delete_entity_space key st = Return tt st' ∧
       __getitem__ key st' = Raise KeyError st' ∧
       content st' es = [] ∧
       (∀ l, l ≠ es → content st' l = content st l) ∧
       (∀ k, k ≠ key → layout_spaces st' !! k = layout_spaces st !! k) ∧
       entitydb st' = entitydb st ∧
       ∃ es' st'', get_entity_space key st' = Return es' st'' ∧
         es' ≠ es ∧ content st'' es' = [] ∧ content st'' es = [] ∧
         __getitem__ key st'' = Return es' st'').
Proof.
  split.
  - intros Hno. unfold delete_entity_space. by rewrite Hno.
  - intros es Hes. unfold delete_entity_space. rewrite Hes.
    unfold bind, EntitySpace.delete_all_entities, del_layout_space. simpl.
    rewrite Hes. eexists. split; [done|]. simpl.
    split; [unfold __getitem__; simpl; by rewrite lookup_delete_eq|].
    split; [apply content_insert_eq|].
    split; [intros l Hne; by apply content_insert_ne|].
    split; [intros k Hne; by apply lookup_delete_ne|].
    split; [done|].
    match goal with |- ∃ es' st'', get_entity_space key ?s = _ ∧ _ =>
      destruct (get_entity_space_cases s key) as [(e & He & _)|(e & _ & Hfresh & Hrun)]
    end.
    { simpl in He. by rewrite lookup_delete_eq in He. }
    eexists e, _. split; [exact Hrun|]. simpl in Hfresh.
    assert (Hne : e ≠ es).
    { intros ->. apply Hfresh. rewrite dom_insert_L. apply elem_of_union. left.
      by apply elem_of_singleton. }
    split; [done|].
    split; [unfold content; simpl; by rewrite lookup_total_insert_eq|].
    split.
    { unfold content. simpl. rewrite lookup_total_insert_ne; [|done].
      by rewrite lookup_total_insert_eq. }
    unfold __getitem__. simpl. by rewrite lookup_insert_eq.
Qed.

Lemma iterate_delete_all l :
  ∀ st, ∃ st',
    iterate l EntitySpace.delete_all_entities st = Return tt st' ∧
    layout_spaces st' = layout_spaces st ∧ entitydb st' = entitydb st ∧
    written st' = written st ∧
    (∀ e, e ∈ l → content st' e = []) ∧
    (∀ e, e ∉ l → content st' e = content st e).
Proof.
  induction l as [|x l IH]; intros st; simpl.
  - exists st. unfold ret. split; [done|]. split; [done|]. split; [done|]. split; [done|].
    split; [intros e He; by apply elem_of_nil in He|done].
  - unfold bind, EntitySpace.delete_all_entities.
    destruct (IH (set_heap st (<[x := []]> (heap st))))
      as (st' & Hrun & Hlay & Hdb & Hw & Hin & Hout).
    exists st'. split; [exact Hrun|]. split; [done|]. split; [done|]. split; [done|].
    split.
    + intros e He. destruct (decide (e ∈ l)) as [Hl|Hl]; [by apply Hin|].
      rewrite (Hout e Hl). apply elem_of_cons in He as [->|He]; [|done].
      apply content_insert_eq.
    + intros e He. apply not_elem_of_cons in He as [Hne Hl].
      rewrite (Hout e Hl). by apply content_insert_ne.
Qed.

Lemma elem_of_values st es :
  es ∈ values st ↔ ∃ k, layout_spaces st !! k = Some es.
Proof.
  unfold values. rewrite list_elem_of_fmap. split.
  - intros ([k e] & -> & Hin). exists k. by apply elem_of_map_to_list.
  - intros [k Hk]. exists (k, es). split; [done|]. by apply elem_of_map_to_list.
Qed.

Lemma sum_list_zero (f : loc → nat) (l : list loc) :
  (∀ e, e ∈ l → f e = 0) → sum_list (f <$> l) = 0.
Proof.
  induction l as [|x l IH]; intros Hz; [done|].
  change (f x + sum_list (f <$> l) = 0).
  rewrite (Hz x); [|left]. rewrite IH; [done|].
  intros e He. apply Hz. by right.
Qed.

Lemma concat_nil_all (f : loc → list handle) (l : list loc) :
  (∀ e, e ∈ l → f e = []) → concat (f <$> l) = [].
Proof.
  induction l as [|x l IH]; intros Hz; [done|].
  change (f x ++ concat (f <$> l) = []).
  rewrite (Hz x); [|left]. rewrite IH; [done|].
  intros e He. apply Hz. by right.
Qed.

(** X4. [delete_all_entities] of the registry always returns; afterwards
    every registered space is empty while all keys are still registered
    to the same objects, so [__len__] is [0] and [handles] yields nothing.
    Objects that are not registered and the database are not touched. *)
Theorem delete_all_entities_spec st :
  ∃ st', delete_all_entities st = Return tt st' ∧
    layout_spaces st' = layout_spaces st ∧ entitydb st' = entitydb st ∧
    (∀ k es, layout_spaces st !! k = Some es → content st' es = []) ∧
    (∀ k, is_Some (layout_spaces st !! k) → space_of st' k = []) ∧
    (∀ l, (∀ k, layout_spaces st !! k ≠ Some l) → content st' l = content st l) ∧
    __len__ st' = 0 ∧ handles st' = [].
Proof.
  unfold delete_all_entities.
  destruct (iterate_delete_all (values st) st) as (st' & Hrun & Hlay & Hdb & _ & Hin & Hout).
  exists st'. split; [exact Hrun|]. split; [done|]. split; [done|].
  assert (Hreg : ∀ k es, layout_spaces st !! k = Some es → content st' es = []).
  { intros k es Hk. apply Hin. apply elem_of_values. by exists k. }
  assert (Hvals : values st' = values st) by (unfold values; by rewrite Hlay).
  split; [done|]. split; [|split; [|split]].
  - intros k [es Hk]. unfold space_of. rewrite Hlay, Hk. by apply (Hreg k).
  - intros l Hl. apply Hout. intros [k Hk]%elem_of_values. by apply (Hl k).
  - unfold __len__. rewrite Hvals. apply sum_list_zero.
    intros e He. by rewrite (Hin e He).
  - unfold handles, __iter__. rewrite Hvals. apply concat_nil_all.
    intros e He. by apply Hin.
Qed.


(** ** [__len__] and [handles] *)

Lemma values_NoDup st : no_alias st → NoDup (values st).
Proof.
  intros Halias. unfold values. apply NoDup_fmap_2_strong; [|apply NoDup_map_to_list].
  intros [k1 e1] [k2 e2] H1%elem_of_map_to_list H2%elem_of_map_to_list Heq.
  simpl in Heq. subst e2. f_equal. by apply (Halias _ _ H1 _ _ H2).
Qed.

Lemma concat_fmap_Permutation (f : loc → list handle) (l1 l2 : list loc) :
  l1 ≡ₚ l2 → concat (f <$> l1) ≡ₚ concat (f <$> l2).
Proof.
  induction 1 as [|x l1 l2 _ IH|x y l|l1 l2 l3 _ IH1 _ IH2]; csimpl.
  - done.
  - by rewrite IH.
  - rewrite !app_assoc. f_equiv. apply Permutation_app_comm.
  - by rewrite IH1.
Qed.

Lemma concat_fmap_ext (f g : loc → list handle) (l : list loc) :
  (∀ e, e ∈ l → f e = g e) → concat (f <$> l) = concat (g <$> l).
Proof.
  induction l as [|x l IH]; intros Hext; [done|].
  change (f x ++ concat (f <$> l) = g x ++ concat (g <$> l)).
  rewrite (Hext x); [|left]. rewrite IH; [done|].
  intros e He. apply Hext. by right.
Qed.

(** One more handle in one of the listed objects is one more handle in
    the concatenation, when the object is listed once. *)
Lemma concat_fmap_append (f g : loc → list handle) (l : list loc) es h :
  NoDup l → es ∈ l → (∀ e, e ≠ es → g e = f e) → g es = f es ++ [h] →
  concat (g <$> l) ≡ₚ h :: concat (f <$> l).
Proof.
  intros Hnd Hin Hother Hes. induction l as [|x l IH]; [by apply elem_of_nil in Hin|].
  apply NoDup_cons in Hnd as [Hx Hnd].
  change (g x ++ concat (g <$> l) ≡ₚ h :: f x ++ concat (f <$> l)).
  destruct (decide (x = es)) as [->|Hne].
  - rewrite Hes. rewrite (concat_fmap_ext g f l).
    + rewrite <- app_assoc. simpl. symmetry. apply Permutation_middle.
    + intros e He. apply Hother. intros ->. done.
  - apply elem_of_cons in Hin as [->|Hin]; [done|].
    rewrite (Hother x Hne). rewrite (IH Hnd Hin). symmetry. apply Permutation_middle.
Qed.

Lemma handles_length st : length (handles st) = __len__ st.
Proof.
  unfold handles, __len__, __iter__. induction (values st) as [|x l IH]; [done|].
  change (length (content st x ++ concat ((λ e, content st e) <$> l)) =
          length (content st x) + sum_list ((λ e, length (content st e)) <$> l)).
  rewrite length_app. by rewrite IH.
Qed.

Lemma elem_of_concat_fmap (f : loc → list handle) (l : list loc) h :
  h ∈ concat (f <$> l) ↔ ∃ e, e ∈ l ∧ h ∈ f e.
Proof.
  induction l as [|x l IH].
  - split; [intros H; by apply elem_of_nil in H|intros (e & H & _); by apply elem_of_nil in H].
  - change (h ∈ f x ++ concat (f <$> l) ↔ ∃ e, e ∈ x :: l ∧ h ∈ f e).
    rewrite elem_of_app, IH. split.
    + intros [Hx|(e & He & Hh)]; [exists x; split; [left|done]|exists e; split; [by right|done]].
    + intros (e & [->|He]%elem_of_cons & Hh); [by left|right; by exists e].
Qed.

Lemma elem_of_handles st h :
  h ∈ handles st ↔ ∃ k, is_Some (layout_spaces st !! k) ∧ h ∈ space_of st k.
Proof.
  unfold handles, __iter__. rewrite elem_of_concat_fmap. split.
  - intros (es & Hes & Hh).
    apply elem_of_values in Hes as [k Hk]. exists k. split; [by eexists|].
    unfold space_of. by rewrite Hk.
  - intros (k & [es Hk] & Hh). unfold space_of in Hh. rewrite Hk in Hh.
    exists es. split; [|done]. apply elem_of_values. by exists k.
Qed.

(** What one [store_tags] does to a registry without dangling or shared
    space objects. *)
Lemma store_tags_handles st t :
  heap_closed st → no_alias st →
  ∃ st', store_tags t st = Return tt st' ∧
    handles st' ≡ₚ get_handle t :: handles st ∧
    heap_closed st' ∧ no_alias st' ∧ get_key st' = get_key st.
Proof.
  intros Hclosed Halias.
  destruct (get_entity_space_cases st (get_key st t))
    as [(es & Hk & Hrun)|(es & Hk & Hfresh & Hrun)].
  - eexists. split; [by apply store_tags_run|].
    split; [|split; [|split; [exact Halias|done]]].
    + unfold handles, __iter__, values. simpl.
      apply concat_fmap_append with (es := es).
      * by apply values_NoDup.
      * apply elem_of_values. by exists (get_key st t).
      * intros e Hne. by apply content_insert_ne.
      * apply content_insert_eq.
    + intros k e He. simpl. destruct (decide (es = e)) as [->|Hne].
      * rewrite lookup_insert_eq. by eexists.
      * rewrite lookup_insert_ne; [|done]. by apply (Hclosed k).
  - assert (Hold : ∀ k e, layout_spaces st !! k = Some e → e ≠ es).
    { intros k e He ->. apply Hfresh, elem_of_dom. by apply (Hclosed k). }
    eexists. split; [by apply store_tags_run|].
    split; [|split; [|split; [|done]]].
    + assert (Hv : (map_to_list (<[get_key st t:=es]> (layout_spaces st))).*2
                   ≡ₚ es :: values st).
      { unfold values. rewrite map_to_list_insert; [done|done]. }
      unfold handles at 1. unfold __iter__, values. simpl.
      rewrite (concat_fmap_Permutation _ _ _ Hv).
      match goal with |- concat (?g <$> _) ≡ₚ _ =>
        change (g es ++ concat (g <$> values st) ≡ₚ get_handle t :: handles st);
        rewrite (concat_fmap_ext g (λ e, content st e) (values st))
      end.
      * rewrite content_insert_eq. unfold content at 1. simpl.
        rewrite lookup_total_insert_eq. simpl. done.
      * intros e [k He]%elem_of_values.
        rewrite content_insert_ne; [|by intros ->; apply Hold in He].
        unfold content. simpl. rewrite lookup_total_insert_ne; [done|].
        intros ->. by apply Hold in He.
    + intros k e He. simpl. destruct (decide (es = e)) as [->|Hne].
      * rewrite lookup_insert_eq. by eexists.
      * rewrite lookup_insert_ne; [|done]. rewrite lookup_insert_ne; [|done].
        simpl in He. apply lookup_insert_Some in He as [[_ ?]|[_ He]]; [done|].
        by apply (Hclosed k).
    + intros k1 e1 H1 k2 e2 H2 <-. simpl in H1, H2.
      apply lookup_insert_Some in H1 as [[<- <-]|[Hne1 H1]];
        apply lookup_insert_Some in H2 as [[<- Heq]|[Hne2 H2]].
      * done.
      * by apply Hold in H2.
      * subst e1. by apply Hold in H1.
      * by apply (Halias _ _ H1 _ _ H2).
Qed.

(** X5. On a registry in which every registered space is a live object
    and different keys hold different objects, [store_tags] returns and
    adds exactly one handle to what [handles] yields, the handle of the
    record (up to the order in which the dict yields the spaces), so
    [__len__] grows by one.  The registry keeps both properties. *)
Theorem store_tags_adds_one_handle st t :
  heap_closed st → no_alias st →
  ∃ st', store_tags t st = Return tt st' ∧
    handles st' ≡ₚ get_handle t :: handles st ∧
    __len__ st' = S (__len__ st) ∧
    heap_closed st' ∧ no_alias st'.
Proof.
  intros Hclosed Halias.
  destruct (store_tags_handles st t Hclosed Halias)
    as (st' & Hrun & Hperm & Hclosed' & Halias' & _).
  exists st'. split; [done|]. split; [done|]. split; [|done].
  rewrite <- !handles_length. by rewrite Hperm.
Qed.

Lemma stores_handles rs :
  ∀ st, heap_closed st → no_alias st →
    ∃ st', stores rs st = Return tt st' ∧
      handles st' ≡ₚ (get_handle <$> rs) ++ handles st ∧
      heap_closed st' ∧ no_alias st'.
Proof.
  induction rs as [|r rs IH]; intros st Hclosed Halias; simpl.
  - exists st. done.
  - destruct (store_tags_handles st r Hclosed Halias)
      as (st1 & Hrun & Hperm & Hclosed1 & Halias1 & _).
    destruct (IH st1 Hclosed1 Halias1) as (st' & Hrun' & Hperm' & Hc & Ha).
    exists st'. unfold bind. rewrite Hrun. split; [done|]. split; [|done].
    rewrite Hperm', Hperm. csimpl. symmetry. apply Permutation_middle.
Qed.

(** X6. After any sequence of [store_tags] calls on a new registry,
    [handles] yields the handles of the stored records, each as often as
    it was stored and nothing else (in the order of the dict, space by
    space), and [__len__] is the number of calls. *)
Theorem handles_after_stores db version rs :
  ∃ st', stores rs (init db version) = Return tt st' ∧
    handles st' ≡ₚ get_handle <$> rs ∧
    __len__ st' = length rs ∧
    (∀ h, h ∈ get_handle <$> rs ↔
          ∃ k, is_Some (layout_spaces st' !! k) ∧ h ∈ space_of st' k).
Proof.
  destruct (filed_init db version) as (Hclosed & Halias & _).
  destruct (stores_handles rs _ Hclosed Halias) as (st' & Hrun & Hperm & _).
  assert (Hinit : handles (init db version) = []) by done.
  rewrite Hinit, app_nil_r in Hperm.
  exists st'. split; [done|]. split; [done|]. split.
  - rewrite <- handles_length, Hperm. by rewrite length_fmap.
  - intros h. rewrite <- elem_of_handles. by rewrite Hperm.
Qed.

Lemma store_tags_adds_one_handle_witness :
  heap_closed st_ABC ∧ no_alias st_ABC ∧
  ∃ st', store_tags rec_bare st_ABC = Return tt st' ∧
    handles st' ≡ₚ get_handle rec_bare :: handles st_ABC ∧
    __len__ st' = S (__len__ st_ABC) ∧
    heap_closed st' ∧ no_alias st'.
Proof.
  assert (H1 : heap_closed st_ABC) by (apply (bool_decide_unpack _); vm_compute; exact I).
  assert (H2 : no_alias st_ABC) by (apply (bool_decide_unpack _); vm_compute; exact I).
  split; [exact H1|]. split; [exact H2|].
  exact (store_tags_adds_one_handle st_ABC rec_bare H1 H2).
Defined.

(** ** [LayoutSpaces.write] *)

Lemma entity_space_write_run st fuel es chains w :
  Forall2 (chain (entitydb st)) (content st es) chains →
  length chains + length (concat chains) < fuel →
  EntitySpace.write fuel es (set_written st w) =
    Return tt (set_written st (w ++ concat chains)).
Proof.
  intros Hchains Hfuel. unfold EntitySpace.write.
  pose proof (Forall2_length _ _ _ Hchains) as Hlen.
  rewrite for_in_for_each; [|apply write_linked_keeps_content|].
  2:{ change (content (set_written st w) es) with (content st es). lia. }
  rewrite drop_0. change (content (set_written st w) es) with (content st es).
  apply for_each_write_chains; [done|].
  apply Forall_forall. intros l Hl.
  assert (length l ≤ length (concat chains)); [|lia].
  clear -Hl. induction chains as [|c chains IH]; [by apply elem_of_nil in Hl|].
  simpl. rewrite length_app. apply elem_of_cons in Hl as [->|Hl]; [lia|].
  specialize (IH Hl). lia.
Qed.

Lemma iterate_cons {A} (x : A) xs body st :
  iterate (x :: xs) body st = bind (body x) (λ _, iterate xs body) st.
Proof. done. Qed.

(** The spaces of a run of good keys are written one after the other, and
    the loop goes on with the keys that follow. *)
Lemma write_keys_prefix st fuel ks css rest :
  Forall2 (space_chains st) ks css →
  Forall (λ chains, length chains + length (concat chains) < fuel) css →
  ∀ w, iterate (ks ++ rest)
         (λ key, bind (__getitem__ key) (λ es, EntitySpace.write fuel es))
         (set_written st w) =
       iterate rest
         (λ key, bind (__getitem__ key) (λ es, EntitySpace.write fuel es))
         (set_written st (w ++ concat ((λ cs, concat cs) <$> css))).
Proof.
  induction 1 as [|k chains ks css (es & Hk & Hchains) _ IH]; intros Hfuel w.
  - simpl. by rewrite app_nil_r.
  - apply Forall_cons in Hfuel as [Hf Hfuel].
    rewrite <- app_comm_cons, iterate_cons. unfold bind at 1.
    assert (Hbody : bind (__getitem__ k) (λ es, EntitySpace.write fuel es)
                      (set_written st w) =
                    Return tt (set_written st (w ++ concat chains))).
    { unfold bind, __getitem__. simpl. rewrite Hk.
      by apply entity_space_write_run. }
    rewrite Hbody, (IH Hfuel). csimpl. by rewrite app_assoc.
Qed.

(** X7. [write] with a list of keys that are all registered, over
    spaces whose link chains all end, returns once the fuel exceeds the
    handles and records of the largest space; the tag writer has then
    received the spaces in the order of the keys, each as
    [EntitySpace.write] emits it.  Nothing but the writer changes. *)
Theorem write_keys_in_order st fuel ks css :
  Forall2 (space_chains st) ks css →
  Forall (λ chains, length chains + length (concat chains) < fuel) css →
  write fuel (Some ks) st =
    Return tt (set_written st (written st ++ concat ((λ cs, concat cs) <$> css))).
Proof.
  intros Hks Hfuel. unfold write.
  rewrite <- (set_written_same st) at 1.
  rewrite <- (app_nil_r ks).
  rewrite (write_keys_prefix st fuel ks css [] Hks Hfuel). done.
Qed.

(** X8. A key that is not registered makes [write] raise [KeyError], but
    only when the loop gets to it: the spaces of the keys listed before
    it have been written by then and stay written, those of the keys
    after it are not written. *)
Theorem write_unknown_key st fuel ks css key rest :
  Forall2 (space_chains st) ks css →
  Forall (λ chains, length chains + length (concat chains) < fuel) css →
  layout_spaces st !! key = None →
  write fuel (Some (ks ++ key :: rest)) st =
    Raise KeyError (set_written st (written st ++ concat ((λ cs, concat cs) <$> css))).
Proof.
  intros Hks Hfuel Hkey. unfold write.
  rewrite <- (set_written_same st) at 1.
  rewrite (write_keys_prefix st fuel ks css (key :: rest) Hks Hfuel).
  simpl. unfold bind, __getitem__. simpl. by rewrite Hkey.
Qed.

Lemma st_chain_space_chains : space_chains st_chain (VInt 0) [[rec_poly; rec_vertex]].
Proof.
  exists 0. split; [vm_compute; reflexivity|].
  assert (content st_chain 0 = ["P"]) as -> by (vm_compute; reflexivity).
  constructor; [|constructor].
  apply (chain_more _ "P" rec_poly "V").
  - vm_compute. reflexivity.
  - reflexivity.
  - apply chain_last.
    + vm_compute. reflexivity.
    + reflexivity.
Qed.

Lemma write_keys_in_order_witness :
  Forall2 (space_chains st_chain) [VInt 0] [[[rec_poly; rec_vertex]]] ∧
  write 4 (Some [VInt 0]) st_chain =
    Return tt (set_written st_chain
                 (written st_chain ++ concat ((λ cs, concat cs) <$> [[[rec_poly; rec_vertex]]]))).
Proof.
  assert (H1 : Forall2 (space_chains st_chain) [VInt 0] [[[rec_poly; rec_vertex]]]).
  { constructor; [exact st_chain_space_chains|constructor]. }
  assert (H2 : Forall (λ chains, length chains + length (concat chains) < 4)
                 [[[rec_poly; rec_vertex]]]).
  { constructor; [simpl; lia|constructor]. }
  split; [exact H1|].
  exact (write_keys_in_order st_chain 4 [VInt 0] [[[rec_poly; rec_vertex]]] H1 H2).
Defined.

Lemma write_unknown_key_witness :
  Forall2 (space_chains st_chain) [VInt 0] [[[rec_poly; rec_vertex]]] ∧
  layout_spaces st_chain !! VInt 7 = None ∧
  write 4 (Some ([VInt 0] ++ VInt 7 :: [VInt 0])) st_chain =
    Raise KeyError
      (set_written st_chain
         (written st_chain ++ concat ((λ cs, concat cs) <$> [[[rec_poly; rec_vertex]]]))).
Proof.
  assert (H1 : Forall2 (space_chains st_chain) [VInt 0] [[[rec_poly; rec_vertex]]]).
  { constructor; [exact st_chain_space_chains|constructor]. }
  assert (H2 : Forall (λ chains, length chains + length (concat chains) < 4)
                 [[[rec_poly; rec_vertex]]]).
  { constructor; [simpl; lia|constructor]. }
  assert (H3 : layout_spaces st_chain !! VInt 7 = None) by (vm_compute; reflexivity).
  split; [exact H1|]. split; [exact H3|].
  exact (write_unknown_key st_chain 4 [VInt 0] [[[rec_poly; rec_vertex]]] (VInt 7)
           [VInt 0] H1 H2 H3).
Defined.

(** ** More on [repair_owner_tags] *)

(** X9. A call of [repair_owner_tags] that returned has left a registry
    on which any further call, with any keys, returns at once and changes
    nothing. *)
Theorem repair_owner_tags_twice fuel mk pk st st' :
  repair_owner_tags fuel mk pk st = Return tt st' →
  ∀ fuel' mk' pk', repair_owner_tags fuel' mk' pk' st' = Return tt st'.
Proof.
  intros Hrun fuel' mk' pk'.
  destruct (legacy (dxfversion st)) eqn:Hleg.
  { rewrite repair_legacy_returns in Hrun; [|done]. injection Hrun as <-.
    by apply repair_legacy_returns. }
  destruct (layout_spaces st !! VInt 0) as [tid|] eqn:Htid.
  2:{ rewrite repair_without_temp_returns in Hrun; [|done]. injection Hrun as <-.
      by apply repair_without_temp_returns. }
  destruct (repair_owner_tags_run fuel mk pk st tid Hleg Htid)
    as (mid & pid & st2 & Heq & _ & _ & Htid2 & _).
  rewrite Heq in Hrun.
  pose proof (repair_passes fuel mk pk mid pid tid st2 Htid2) as Hpasses.
  rewrite Hrun in Hpasses. destruct Hpasses as (Hlay & _).
  apply repair_without_temp_returns. rewrite Hlay. apply lookup_delete_eq.
Qed.

Lemma repair_owner_tags_twice_witness :
  repair_owner_tags 4 (VInt 100) (VInt 200) st_ABC = Return tt st_repaired ∧
  ∀ fuel' mk' pk', repair_owner_tags fuel' mk' pk' st_repaired = Return tt st_repaired.
Proof.
  assert (H : repair_owner_tags 4 (VInt 100) (VInt 200) st_ABC = Return tt st_repaired).
  { vm_compute. reflexivity. }
  split; [exact H|].
  exact (repair_owner_tags_twice 4 (VInt 100) (VInt 200) st_ABC st_repaired H).
Defined.

(** A property of the state that the body of a loop keeps, whatever its
    outcome, is kept by the loop. *)
Lemma for_in_frame (P : state → Prop) self body :
  (∀ x s, P s → match body x s with
                | Return _ s' => P s'
                | Raise _ s' => P s'
                | OutOfFuel => True
                end) →
  ∀ fuel i s, P s →
    match for_in fuel self i body s with
    | Return _ s' => P s'
    | Raise _ s' => P s'
    | OutOfFuel => True
    end.
Proof.
  intros Hbody fuel i s Hs.
  pose proof (for_in_rule (λ _, P) (λ _, P) self body
                (λ i x s Hs _, Hbody x s Hs) fuel i s Hs) as Hrule.
  destruct (for_in fuel self i body s) as [[] s'|e s'|]; [|done|done].
  by destruct Hrule as (n & _ & Hn & _).
Qed.

Lemma set_first_twice ts code v1 v2 :
  set_first (set_first ts code v1) code v2 = set_first ts code v2.
Proof.
  induction ts as [|[c x] ts IH]; simpl.
  - by rewrite decide_True.
  - destruct (decide (c = code)) as [->|Hne]; simpl.
    + by rewrite decide_True.
    + rewrite decide_False; [|done]. by rewrite IH.
Qed.

Lemma get_first_value_set_first_ne ts code v c :
  c ≠ code → get_first_value (set_first ts code v) c = get_first_value ts c.
Proof.
  intros Hne. induction ts as [|[c' x] ts IH]; simpl.
  - by rewrite decide_False.
  - destruct (decide (c' = code)) as [->|Hne']; simpl.
    + rewrite !decide_False; done.
    + destruct (decide (c' = c)); [done|apply IH].
Qed.

Lemma repaired_from_step mk pk temp db0 db x t et :
  repaired_from mk pk temp db0 db → x ∈ temp →
  db !! x = Some t → get_subclass t "AcDbEntity" = Some et →
  repaired_from mk pk temp db0
    (<[x := set_noclass t (set_first (noclass t) 330 (resolved_key mk pk et))]> db) ∧
  retagged_in mk pk db0
    (<[x := set_noclass t (set_first (noclass t) 330 (resolved_key mk pk et))]> db) x.
Proof.
  intros Hrep Hx Ht Het.
  assert (Hx0 : retagged_in mk pk db0
    (<[x := set_noclass t (set_first (noclass t) 330 (resolved_key mk pk et))]> db) x).
  { unfold retagged_in. rewrite lookup_insert_eq.
    destruct (Hrep x) as [Hsame|(_ & t0 & t' & Ht0 & Ht' & (et0 & Het0 & ->))].
    - eexists t, _. split; [congruence|]. split; [done|]. by exists et.
    - eexists t0, _. split; [done|]. split; [done|].
      assert (t = set_noclass t0
          (set_first (noclass t0) 330 (resolved_key mk pk et0))) as -> by congruence.
      assert (et = et0) as -> by (unfold get_subclass in *; simpl in Het; congruence).
      exists et0. split; [done|]. unfold set_noclass. simpl.
      by rewrite set_first_twice. }
  split; [|done].
  intros h. destruct (decide (h = x)) as [->|Hne].
  - right. done.
  - destruct (Hrep h) as [Hsame|(Hh & t0 & t' & Ht0 & Ht' & Hre)].
    + left. by rewrite lookup_insert_ne.
    + right. split; [done|]. exists t0, t'. by rewrite lookup_insert_ne.
Qed.

Lemma retagged_in_step mk pk db0 db x t ts h :
  h ≠ x → retagged_in mk pk db0 db h →
  retagged_in mk pk db0 (<[x := set_noclass t ts]> db) h.
Proof.
  intros Hne (t0 & t' & Ht0 & Ht' & Hre). exists t0, t'.
  by rewrite lookup_insert_ne.
Qed.

(** The tag-fix pass and the database: whatever the outcome, a record is
    what it was or has been retagged; when the pass returns, the record of
    every handle of the space has been. *)
Lemma update_entity_tags_database fuel mk pk es st :
  match update_entity_tags fuel mk pk es st with
  | Return _ st' =>
      same_settings st st' ∧
      repaired_from mk pk (content st es) (entitydb st) (entitydb st') ∧
      Forall (retagged_in mk pk (entitydb st) (entitydb st')) (content st es)
  | Raise _ st' =>
      same_settings st st' ∧
      repaired_from mk pk (content st es) (entitydb st) (entitydb st')
  | OutOfFuel => True
  end.
Proof.
  unfold update_entity_tags.
  pose (I := λ (i : nat) (s : state),
    heap s = heap st ∧ same_settings st s ∧
    repaired_from mk pk (content st es) (entitydb st) (entitydb s) ∧
    ∀ j h, j < i → content st es !! j = Some h →
           retagged_in mk pk (entitydb st) (entitydb s) h).
  pose (R := λ (e : exn) (s : state),
    same_settings st s ∧
    repaired_from mk pk (content st es) (entitydb st) (entitydb s)).
  assert (Hstep : ∀ i x s, I i s → content s es !! i = Some x →
    match tag_entity mk pk es x s with
    | Return _ s' => I (S i) s'
    | Raise e s' => R e s'
    | OutOfFuel => True
    end).
  { intros i x s (Hheap & Hset & Hrep & Hdone) Hi.
    assert (Hi0 : content st es !! i = Some x).
    { unfold content in *. by rewrite <- Hheap. }
    assert (Hx0 : x ∈ content st es) by (apply list_elem_of_lookup; eauto).
    destruct (tag_entity_cases mk pk es x s)
      as [[Hn H]|[(t & Hx & Hnone & H)|(t & et & Hx & Het & H)]]; rewrite H.
    - done.
    - done.
    - destruct (repaired_from_step mk pk _ _ _ x t et Hrep Hx0 Hx Het) as [Hrep' Hx'].
      unfold I. simpl. split; [done|]. split; [exact Hset|]. split; [exact Hrep'|].
      intros j h Hj Hjh. destruct (decide (h = x)) as [->|Hne]; [exact Hx'|].
      apply retagged_in_step; [done|]. apply (Hdone j); [|done].
      destruct (decide (j = i)) as [->|Hji]; [congruence|lia]. }
  pose proof (for_in_rule I R es _ Hstep fuel 0 st) as Hrule.
  assert (Hinit : I 0 st).
  { unfold I. split; [done|]. split; [done|]. split; [by left|]. intros j h Hj. lia. }
  specialize (Hrule Hinit).
  destruct (for_in fuel es 0 (tag_entity mk pk es) st) as [[] st'|e st'|]; [|done|done].
  destruct Hrule as (n & _ & (Hheap & Hset & Hrep & Hdone) & Hend).
  split; [done|]. split; [done|].
  apply Forall_lookup. intros j h Hjh. apply (Hdone j); [|done].
  unfold content in Hend. rewrite Hheap in Hend.
  apply lookup_ge_None in Hend. apply lookup_lt_Some in Hjh.
  unfold content in Hjh. lia.
Qed.

(** The redistribution pass reads the database and writes to the spaces
    only. *)
Lemma distribute_database fuel mk pk mid pid tid st :
  match distribute fuel mk pk mid pid tid st with
  | Return _ st' => same_settings st st' ∧ entitydb st' = entitydb st
  | Raise _ st' => same_settings st st' ∧ entitydb st' = entitydb st
  | OutOfFuel => True
  end.
Proof.
  unfold distribute.
  apply (for_in_frame (λ s, same_settings st s ∧ entitydb s = entitydb st)); [|done].
  intros x s Hs.
  destruct (place_entity_cases mk pk mid pid tid x s)
    as [[_ H]|[(t' & _ & _ & H)|[(t' & o & _ & _ & _ & _ & H)|
        (t' & l' & _ & _ & H)]]]; rewrite H; done.
Qed.

Lemma same_settings_trans st1 st2 st3 :
  same_settings st1 st2 → same_settings st2 st3 → same_settings st1 st3.
Proof.
  unfold same_settings. intros (? & ? & ?) (? & ? & ?).
  split; [congruence|]. split; congruence.
Qed.

(** The whole of [repair_owner_tags] and the database: whatever the
    outcome, a record is what it was or is the retagged record of a handle
    of the temporary space; when the call returns past its guards, the
    record of every handle of the temporary space has been retagged. *)
Lemma repair_owner_tags_database_run fuel mk pk st :
  match repair_owner_tags fuel mk pk st with
  | Return _ st' =>
      same_settings st st' ∧
      repaired_from mk pk (space_of st (VInt 0)) (entitydb st) (entitydb st') ∧
      (legacy (dxfversion st) = false →
       Forall (retagged_in mk pk (entitydb st) (entitydb st')) (space_of st (VInt 0)))
  | Raise _ st' =>
      same_settings st st' ∧
      repaired_from mk pk (space_of st (VInt 0)) (entitydb st) (entitydb st')
  | OutOfFuel => True
  end.
Proof.
  unfold repair_owner_tags.
  destruct (legacy (dxfversion st)) eqn:Hleg.
  { split; [done|]. split; [by left|]. done. }
  unfold space_of.
  destruct (layout_spaces st !! VInt 0) as [tid|] eqn:Htid.
  2:{ split; [done|]. split; [by left|]. intros _. constructor. }
  destruct (get_entity_space_frame st mk)
    as (mid & st1 & Hg1 & _ & _ & _ & Hcont1 & Hdb1 & Hw1 & Hv1 & Hk1).
  destruct (get_entity_space_frame st1 pk)
    as (pid & st2 & Hg2 & _ & _ & _ & Hcont2 & Hdb2 & Hw2 & Hv2 & Hk2).
  assert (Hset2 : same_settings st st2).
  { split; [congruence|]. split; congruence. }
  unfold bind at 1. rewrite Hg1. unfold bind at 1. rewrite Hg2.
  unfold bind at 1.
  pose proof (update_entity_tags_database fuel mk pk tid st2) as Hp1.
  rewrite Hcont2, Hcont1, Hdb2, Hdb1 in Hp1.
  destruct (update_entity_tags fuel mk pk tid st2) as [[] st3|e st3|]; [| |done].
  2:{ destruct Hp1 as [Hset3 Hrep3]. split; [|done].
      by apply (same_settings_trans _ st2). }
  destruct Hp1 as (Hset3 & Hrep3 & Hall3).
  unfold bind at 1.
  pose proof (distribute_database fuel mk pk mid pid tid st3) as Hp2.
  destruct (distribute fuel mk pk mid pid tid st3) as [[] st4|e st4|]; [| |done].
  2:{ destruct Hp2 as [Hset4 Hdb4]. rewrite Hdb4. split; [|done].
      apply (same_settings_trans _ st3); [|done]. by apply (same_settings_trans _ st2). }
  destruct Hp2 as [Hset4 Hdb4].
  assert (Hset : same_settings st st4).
  { apply (same_settings_trans _ st3); [|done]. by apply (same_settings_trans _ st2). }
  unfold del_layout_space.
  destruct (layout_spaces st4 !! VInt 0); simpl; rewrite Hdb4; done.
Qed.

Lemma retagged_keeps mk pk t t' :
  retagged mk pk t t' →
  get_handle t' = get_handle t ∧ link t' = link t ∧ subclasses t' = subclasses t ∧
  ∀ c, c ≠ 330%Z → get_first_value (noclass t') c = get_first_value (noclass t) c.
Proof.
  intros (et & _ & ->). simpl. split; [done|]. split; [done|]. split; [done|].
  intros c Hc. by apply get_first_value_set_first_ne.
Qed.

(** [set_first] touches no tag of another group code. *)
Lemma set_first_filter_ne ts code v :
  filter (λ tag : Z * value, tag.1 ≠ code) (set_first ts code v) =
  filter (λ tag : Z * value, tag.1 ≠ code) ts.
Proof.
  induction ts as [|[c x] ts IH]; simpl.
  - rewrite filter_cons_False; [done|]. simpl. by intros H.
  - destruct (decide (c = code)) as [->|Hne].
    + rewrite !filter_cons_False; [done|simpl; by intros H..].
    + rewrite !filter_cons_True; [|done..]. by rewrite IH.
Qed.

Lemma retagged_noclass mk pk t t' :
  retagged mk pk t t' →
  ∃ key, (key = mk ∨ key = pk) ∧ noclass t' = set_first (noclass t) 330 key.
Proof.
  intros (et & _ & ->). exists (resolved_key mk pk et). split; [|done].
  unfold resolved_key. destruct (decide (paper_space_flag et = VInt 0)); [by left|by right].
Qed.

(** X10. What [repair_owner_tags] does to the entity database, whether it
    returns or raises: the tag writer, the version and the key function
    are as before; the database has the same handles; a record whose
    handle is not in the temporary space is untouched; and any record
    keeps its handle, its link and its subclass groups, while its first
    group is either what it was or what [set_first(330, key)] makes of
    it, for the model key or the paper key: the tags of every other group
    code are all kept, in number and in order. *)
Theorem repair_owner_tags_keeps_records fuel mk pk st st' :
  final_state (repair_owner_tags fuel mk pk st) = Some st' →
  same_settings st st' ∧
  (∀ h, h ∉ space_of st (VInt 0) → entitydb st' !! h = entitydb st !! h) ∧
  (∀ h, entitydb st !! h = None → entitydb st' !! h = None) ∧
  (∀ h t, entitydb st !! h = Some t →
     ∃ t', entitydb st' !! h = Some t' ∧
       get_handle t' = get_handle t ∧ link t' = link t ∧
       subclasses t' = subclasses t ∧
       (noclass t' = noclass t ∨
        ∃ key, (key = mk ∨ key = pk) ∧ noclass t' = set_first (noclass t) 330 key) ∧
       filter (λ tag : Z * value, tag.1 ≠ 330%Z) (noclass t') =
         filter (λ tag : Z * value, tag.1 ≠ 330%Z) (noclass t) ∧
       ∀ c, c ≠ 330%Z → get_first_value (noclass t') c = get_first_value (noclass t) c).
Proof.
  intros Hfin.
  pose proof (repair_owner_tags_database_run fuel mk pk st) as Hrun.
  assert (H : same_settings st st' ∧
    repaired_from mk pk (space_of st (VInt 0)) (entitydb st) (entitydb st')).
  { destruct (repair_owner_tags fuel mk pk st) as [[] s|e s|]; simpl in Hfin; [| |done].
    - injection Hfin as <-. destruct Hrun as (? & ? & _). done.
    - injection Hfin as <-. done. }
  clear Hrun Hfin. destruct H as [Hset Hrep].
  split; [done|]. split; [|split].
  - intros h Hh. destruct (Hrep h) as [Hsame|[Hin _]]; done.
  - intros h Hnone. destruct (Hrep h) as [Hsame|(_ & t & t' & Ht & _)]; congruence.
  - intros h t Ht. destruct (Hrep h) as [Hsame|(_ & t0 & t' & Ht0 & Ht' & Hre)].
    + exists t. split; [congruence|]. split; [done|]. split; [done|]. split; [done|].
      split; [by left|]. done.
    + assert (t0 = t) as -> by congruence. exists t'. split; [done|].
      destruct (retagged_keeps mk pk t t' Hre) as (Hh & Hl & Hs & Hc).
      destruct (retagged_noclass mk pk t t' Hre) as (key & Hkey & Hnc).
      split; [done|]. split; [done|]. split; [done|].
      split; [right; by exists key|]. split; [|done].
      rewrite Hnc. apply set_first_filter_ne.
Qed.

Lemma repair_owner_tags_keeps_records_witness :
  final_state (repair_owner_tags 4 (VInt 100) (VInt 200) st_ABC) = Some st_repaired ∧
  same_settings st_ABC st_repaired ∧
  (∀ h, h ∉ space_of st_ABC (VInt 0) →
     entitydb st_repaired !! h = entitydb st_ABC !! h) ∧
  (∀ h, entitydb st_ABC !! h = None → entitydb st_repaired !! h = None) ∧
  (∀ h t, entitydb st_ABC !! h = Some t →
     ∃ t', entitydb st_repaired !! h = Some t' ∧
       get_handle t' = get_handle t ∧ link t' = link t ∧
       subclasses t' = subclasses t ∧
       (noclass t' = noclass t ∨
        ∃ key, (key = VInt 100 ∨ key = VInt 200) ∧
               noclass t' = set_first (noclass t) 330 key) ∧
       filter (λ tag : Z * value, tag.1 ≠ 330%Z) (noclass t') =
         filter (λ tag : Z * value, tag.1 ≠ 330%Z) (noclass t) ∧
       ∀ c, c ≠ 330%Z → get_first_value (noclass t') c = get_first_value (noclass t) c).
Proof.
  assert (H : final_state (repair_owner_tags 4 (VInt 100) (VInt 200) st_ABC)
              = Some st_repaired).
  { vm_compute. reflexivity. }
  split; [exact H|].
  exact (repair_owner_tags_keeps_records 4 (VInt 100) (VInt 200) st_ABC st_repaired H).
Defined.

(** X11. A call of [repair_owner_tags] that returns past its guards has
    rewritten the record of every handle of the temporary space as the
    same record with the owner tag set to the key its paper-space flag
    resolves to, and has filed the handle under the key that the new owner
    tag names. *)
Theorem repair_owner_tags_files_by_owner fuel mk pk st st' :
  legacy (dxfversion st) = false →
  repair_owner_tags fuel mk pk st = Return tt st' →
  ∀ h, h ∈ space_of st (VInt 0) →
    ∃ t entity_tags t',
      entitydb st !! h = Some t ∧
      get_subclass t "AcDbEntity" = Some entity_tags ∧
      entitydb st' !! h = Some t' ∧
      t' = set_noclass t (set_first (noclass t) 330 (resolved_key mk pk entity_tags)) ∧
      owner_value t' = resolved_key mk pk entity_tags ∧
      h ∈ space_of st' (owner_value t').
Proof.
  intros Hleg Hrun h Hh.
  pose proof (repair_owner_tags_database_run fuel mk pk st) as Hdb.
  rewrite Hrun in Hdb. destruct Hdb as (_ & _ & Hall). specialize (Hall Hleg).
  destruct (proj1 (Forall_forall _ _) Hall h Hh) as (t & t' & Ht & Ht' & (et & Het & Heq)).
  exists t, et, t'. split; [done|]. split; [done|]. split; [done|]. split; [done|].
  assert (Howner : owner_value t' = resolved_key mk pk et).
  { rewrite Heq. unfold owner_value, get_first_value_default. simpl.
    by rewrite get_first_value_set_first. }
  split; [done|]. rewrite Howner.
  unfold space_of in Hh.
  destruct (layout_spaces st !! VInt 0) as [tid|] eqn:Htid; [|by apply elem_of_nil in Hh].
  destruct (repair_owner_tags_run fuel mk pk st tid Hleg Htid)
    as (mid & pid & st2 & Hbind & Hmk & Hpk & Htid2 & Hcont2 & Hdb2 & _).
  rewrite Hbind in Hrun.
  pose proof (repair_passes fuel mk pk mid pid tid st2 Htid2) as Hpasses.
  rewrite Hrun in Hpasses. destruct Hpasses as [Hlay Hplace].
  rewrite <- Hcont2 in Hh. rewrite <- Hdb2 in Ht.
  destruct (Hplace h t et Hh Ht Het) as [Hin Hne].
  unfold space_of. rewrite Hlay.
  destruct (decide (resolved_key mk pk et = mk)) as [Hrk|Hrk].
  - rewrite Hrk. rewrite lookup_delete_ne.
    + by rewrite Hmk.
    + intros <-. congruence.
  - assert (resolved_key mk pk et = pk) as ->.
    { unfold resolved_key in *. by destruct (decide (paper_space_flag et = VInt 0)). }
    rewrite lookup_delete_ne.
    + by rewrite Hpk.
    + intros <-. congruence.
Qed.

Lemma repair_owner_tags_files_by_owner_witness :
  legacy (dxfversion st_ABC) = false ∧
  repair_owner_tags 4 (VInt 100) (VInt 200) st_ABC = Return tt st_repaired ∧
  ∀ h, h ∈ space_of st_ABC (VInt 0) →
    ∃ t entity_tags t',
      entitydb st_ABC !! h = Some t ∧
      get_subclass t "AcDbEntity" = Some entity_tags ∧
      entitydb st_repaired !! h = Some t' ∧
      t' = set_noclass t (set_first (noclass t) 330
                            (resolved_key (VInt 100) (VInt 200) entity_tags)) ∧
      owner_value t' = resolved_key (VInt 100) (VInt 200) entity_tags ∧
      h ∈ space_of st_repaired (owner_value t').
Proof.
  assert (H1 : legacy (dxfversion st_ABC) = false) by (vm_compute; reflexivity).
  assert (H2 : repair_owner_tags 4 (VInt 100) (VInt 200) st_ABC = Return tt st_repaired).
  { vm_compute. reflexivity. }
  split; [exact H1|]. split; [exact H2|].
  exact (repair_owner_tags_files_by_owner 4 (VInt 100) (VInt 200) st_ABC st_repaired H1 H2).
Defined.

(** [get_entity_space] keeps the store well formed: the object it
    creates is a new one. *)
Lemma get_entity_space_wf key st es st' :
  heap_closed st → no_alias st →
  get_entity_space key st = Return es st' →
  heap_closed st' ∧ no_alias st'.
Proof.
  intros Hclosed Halias Hrun.
  destruct (get_entity_space_cases st key) as [(e & Hk & Hr)|(e & Hk & Hfresh & Hr)];
    rewrite Hr in Hrun; injection Hrun as <- <-; [done|].
  assert (Hold : ∀ k x, layout_spaces st !! k = Some x → x ≠ e).
  { intros k x Hx ->. apply Hfresh. apply elem_of_dom. by apply (Hclosed k). }
  split.
  - intros k x. simpl. intros Hx. apply lookup_insert_Some in Hx as [[<- <-]|[Hne Hx]].
    + rewrite lookup_insert_eq. by eexists.
    + rewrite lookup_insert_ne; [by apply (Hclosed k)|]. intros <-. by apply (Hold k e).
  - intros k1 e1. simpl. intros H1 k2 e2 H2 Heq.
    apply lookup_insert_Some in H1 as [[<- <-]|[Hne1 H1]];
      apply lookup_insert_Some in H2 as [[<- <-]|[Hne2 H2]].
    + done.
    + exfalso. by apply (Hold k2 e2).
    + exfalso. by apply (Hold k1 e1).
    + by apply (Halias k1 e1 H1 k2 e2 H2).
Qed.



(** A traversal with the body of [distribute] that returns has appended
    to every space object, in order, the handles that have it as
    destination. *)
Lemma for_each_place_exact mk pk mid pid tid l :
  ∀ st st',
    for_each l (place_entity mk pk mid pid tid) st = Return tt st' →
    entitydb st' = entitydb st ∧ layout_spaces st' = layout_spaces st ∧
    ∀ e, content st' e =
         content st e ++
         filter (λ h, destination_of (entitydb st) mk pk mid pid h = Some e) l.
Proof.
  induction l as [|x l IH]; intros st st' Hrun.
  - injection Hrun as <-. split; [done|]. split; [done|].
    intros e. by rewrite app_nil_r.
  - simpl in Hrun. unfold bind in Hrun.
    destruct (place_entity_cases mk pk mid pid tid x st)
      as [[_ H]|[(t & _ & _ & H)|[(t & o & _ & _ & _ & _ & H)|(t & d & Ht & Hd & H)]]];
      rewrite H in Hrun; try done.
    destruct (IH _ _ Hrun) as (Hdb & Hlay & Hcont).
    simpl in Hdb, Hlay. split; [done|]. split; [done|].
    intros e. rewrite Hcont. simpl.
    assert (Hx : destination_of (entitydb st) mk pk mid pid x = Some d).
    { unfold destination_of. by rewrite Ht. }
    destruct (decide (d = e)) as [->|Hne].
    + rewrite content_insert_eq. rewrite filter_cons_True; [|done].
      by rewrite <- app_assoc.
    + rewrite content_insert_ne; [|done]. rewrite filter_cons_False; [done|].
      rewrite Hx. congruence.
Qed.

(** Looking a space up or creating it changes nothing of what
    [handles] yields: a new space is empty. *)
Lemma get_entity_space_handles key st es st' :
  get_entity_space key st = Return es st' → handles st' ≡ₚ handles st.
Proof.
  intros Hrun.
  destruct (get_entity_space_cases st key) as [(e & Hk & Hr)|(e & Hk & Hfresh & Hr)];
    rewrite Hr in Hrun; injection Hrun as <- <-; [done|].
  assert (Hv : (map_to_list (<[key:=e]> (layout_spaces st))).*2 ≡ₚ e :: values st).
  { unfold values. rewrite map_to_list_insert; [done|done]. }
  unfold handles at 1. unfold __iter__, values. simpl.
  rewrite (concat_fmap_Permutation _ _ _ Hv).
  match goal with |- concat (?g <$> _) ≡ₚ _ =>
    change (g e ++ concat (g <$> values st) ≡ₚ handles st);
    rewrite (concat_fmap_ext g (λ e, content st e) (values st))
  end.
  - unfold content at 1. simpl. rewrite lookup_total_insert_eq. done.
  - intros x _. destruct (decide (e = x)) as [<-|Hne].
    + unfold content at 1. simpl. rewrite lookup_total_insert_eq.
      symmetry. by apply content_unallocated.
    + unfold content. simpl. by rewrite lookup_total_insert_ne.
Qed.

(** [repair_owner_tags] past its guards on a well-formed registry, with
    keys other than [0], when it returns: [st2] is the store after the two
    spaces have been looked up or created; the call then removes key [0]
    and appends to every space object, in the order of the temporary
    space, the handles that have it as destination [d]. *)
Lemma repair_owner_tags_exact_run fuel mk pk st st' tid :
  heap_closed st → no_alias st →
  mk ≠ VInt 0 → pk ≠ VInt 0 →
  legacy (dxfversion st) = false →
  layout_spaces st !! VInt 0 = Some tid →
  repair_owner_tags fuel mk pk st = Return tt st' →
  ∃ mid pid st2 (d : handle → option loc),
    layout_spaces st2 !! mk = Some mid ∧ layout_spaces st2 !! pk = Some pid ∧
    layout_spaces st2 !! VInt 0 = Some tid ∧ no_alias st2 ∧
    (∀ k, space_of st2 k = space_of st k) ∧
    (∀ k, k ≠ mk → k ≠ pk → layout_spaces st2 !! k = layout_spaces st !! k) ∧
    handles st2 ≡ₚ handles st ∧
    layout_spaces st' = delete (VInt 0) (layout_spaces st2) ∧
    (∀ e, content st' e =
          content st2 e ++ filter (λ h, d h = Some e) (content st2 tid)) ∧
    (∀ h, h ∈ content st2 tid →
       ∃ rk, resolved_key_of (entitydb st) mk pk h = Some rk ∧ (rk = mk ∨ rk = pk) ∧
             d h = Some (if decide (rk = mk) then mid else pid)).
Proof.
  intros Hclosed Halias Hmk0 Hpk0 Hleg Htid Hrun.
  unfold repair_owner_tags in Hrun. rewrite Hleg, Htid in Hrun.
  destruct (get_entity_space_frame st mk)
    as (mid & st1 & Hg1 & Hmk1 & Hother1 & Hkeep1 & Hcont1 & Hdb1 & _).
  destruct (get_entity_space_wf mk st mid st1 Hclosed Halias Hg1) as [Hclosed1 Halias1].
  destruct (get_entity_space_frame st1 pk)
    as (pid & st2 & Hg2 & Hpk2 & Hother2 & Hkeep2 & Hcont2 & Hdb2 & _).
  destruct (get_entity_space_wf pk st1 pid st2 Hclosed1 Halias1 Hg2) as [Hclosed2 Halias2].
  unfold bind at 1 in Hrun. rewrite Hg1 in Hrun.
  unfold bind at 1 in Hrun. rewrite Hg2 in Hrun.
  assert (Hmk2 : layout_spaces st2 !! mk = Some mid) by (by apply Hkeep2).
  assert (Htid2 : layout_spaces st2 !! VInt 0 = Some tid) by (by apply Hkeep2, Hkeep1).
  assert (Hmid : mid ≠ tid).
  { intros ->. apply Hmk0. by apply (Halias2 mk tid Hmk2 (VInt 0) tid Htid2). }
  assert (Hpid : pid ≠ tid).
  { intros ->. apply Hpk0. by apply (Halias2 pk tid Hpk2 (VInt 0) tid Htid2). }
  (* the state before the call reads the same in st2 *)
  assert (Hspace2 : ∀ k, space_of st2 k = space_of st k).
  { intros k. unfold space_of.
    destruct (layout_spaces st !! k) as [e|] eqn:Hk.
    - rewrite (Hkeep2 k e (Hkeep1 k e Hk)). by rewrite Hcont2, Hcont1.
    - destruct (decide (k = pk)) as [->|Hkp].
      + rewrite Hpk2, Hcont2.
        destruct (get_entity_space_cases st1 pk) as [(e & He & Hr)|(e & He & Hf & Hr)];
          rewrite Hr in Hg2; injection Hg2 as -> _.
        * destruct (decide (pk = mk)) as [Heq|Hne].
          { rewrite Heq in He. assert (pid = mid) as -> by congruence.
            rewrite Hcont1.
            destruct (get_entity_space_cases st mk)
              as [(e' & He' & Hr')|(e' & He' & Hf' & Hr')];
              rewrite Hr' in Hg1; injection Hg1 as -> _.
            - rewrite <- Heq in He'. congruence.
            - by apply content_unallocated. }
          { rewrite (Hother1 pk Hne) in He. congruence. }
        * by apply content_unallocated.
      + rewrite (Hother2 k Hkp). destruct (decide (k = mk)) as [->|Hkm].
        * rewrite Hmk1, Hcont2, Hcont1.
          destruct (get_entity_space_cases st mk)
            as [(e' & He' & Hr')|(e' & He' & Hf' & Hr')];
            rewrite Hr' in Hg1; injection Hg1 as -> _; [congruence|].
          by apply content_unallocated.
        * by rewrite (Hother1 k Hkm), Hk. }
  assert (Hlay2 : ∀ k, k ≠ mk → k ≠ pk → layout_spaces st2 !! k = layout_spaces st !! k).
  { intros k Hkm Hkp. by rewrite (Hother2 k Hkp), (Hother1 k Hkm). }
  assert (Hdb20 : entitydb st2 = entitydb st) by congruence.
  assert (Hh2 : handles st2 ≡ₚ handles st).
  { rewrite (get_entity_space_handles pk st1 pid st2 Hg2).
    by rewrite (get_entity_space_handles mk st mid st1 Hg1). }
  (* the two passes *)
  unfold bind at 1 in Hrun.
  pose proof (update_entity_tags_spec fuel mk pk tid st2) as Hpass1.
  destruct (update_entity_tags fuel mk pk tid st2) as [[] st3|e st3|]; [|done|done].
  destruct Hpass1 as (Hheap3 & Hlay3 & Hsame & Htagged).
  assert (Hc3 : ∀ l, content st3 l = content st2 l) by (intros l; unfold content; by rewrite Hheap3).
  unfold bind at 1 in Hrun.
  destruct (distribute fuel mk pk mid pid tid st3) as [[] st4|e st4|] eqn:Hrun2;
    [|done|done].
  unfold distribute in Hrun2.
  apply (for_in_Return_for_each tid _ (place_entity_keeps_content mk pk mid pid tid tid Hmid Hpid))
    in Hrun2.
  rewrite drop_0 in Hrun2.
  destruct (for_each_place_exact _ _ _ _ _ _ _ _ Hrun2) as (Hdb4 & Hlay4 & Hcont4).
  unfold del_layout_space in Hrun. rewrite Hlay4, Hlay3, Htid2 in Hrun.
  injection Hrun as <-.
  (* the destination of a handle of the temporary space, from the record
     it had before *)
  assert (Hdest : ∀ h, h ∈ content st2 tid →
    ∃ rk, resolved_key_of (entitydb st) mk pk h = Some rk ∧ (rk = mk ∨ rk = pk) ∧
          destination_of (entitydb st3) mk pk mid pid h =
            Some (if decide (rk = mk) then mid else pid)).
  { intros h Hh.
    pose proof (proj1 (Forall_forall _ _) Htagged h Hh) as Hht.
    destruct (tagged_destination mk pk mid pid _ _ Hht) as (t3 & et & Ht3 & Het3 & Hd3).
    exists (resolved_key mk pk et). split; [|split].
    - unfold resolved_key_of. rewrite <- Hdb20.
      pose proof (Hsame h) as Hg. rewrite Ht3 in Hg.
      destruct (entitydb st2 !! h) as [t2|] eqn:Ht2; [|done].
      rewrite <- (same_groups_get_subclass _ _ _ _ _ "AcDbEntity" Hsame Ht2 Ht3).
      by rewrite Het3.
    - unfold resolved_key. destruct (decide (paper_space_flag et = VInt 0)); [by left|by right].
    - unfold destination_of. by rewrite Ht3. }
  exists mid, pid, st2, (destination_of (entitydb st3) mk pk mid pid).
  split; [done|]. split; [done|]. split; [done|]. split; [done|].
  split; [done|]. split; [done|]. split; [done|]. split; [done|].
  split; [|done].
  intros e. change (content st4 e = content st2 e ++
    filter (λ h, destination_of (entitydb st3) mk pk mid pid h = Some e) (content st2 tid)).
  rewrite Hcont4. by rewrite !Hc3.
Qed.



(** ** [repair_owner_tags] neither loses nor duplicates a handle *)

Lemma concat_fmap_app (f g : loc → list handle) (l : list loc) :
  concat ((λ e, f e ++ g e) <$> l) ≡ₚ concat (f <$> l) ++ concat (g <$> l).
Proof.
  induction l as [|x l IH]; [done|].
  change ((f x ++ g x) ++ concat ((λ e, f e ++ g e) <$> l) ≡ₚ
          (f x ++ concat (f <$> l)) ++ g x ++ concat (g <$> l)).
  rewrite IH. rewrite <- !app_assoc. f_equiv.
  rewrite !app_assoc. f_equiv. apply Permutation_app_comm.
Qed.

(** One more element in front of the list of one of the listed objects,
    listed once. *)
Lemma concat_fmap_cons_one (g : loc → list handle) (e0 : loc) (x : handle)
    (es : list loc) :
  NoDup es → e0 ∈ es →
  concat ((λ e, if decide (e0 = e) then x :: g e else g e) <$> es) ≡ₚ
  x :: concat (g <$> es).
Proof.
  intros Hnd Hin. induction es as [|a es IH]; [by apply elem_of_nil in Hin|].
  apply NoDup_cons in Hnd as [Ha Hnd].
  change ((if decide (e0 = a) then x :: g a else g a) ++
          concat ((λ e, if decide (e0 = e) then x :: g e else g e) <$> es) ≡ₚ
          x :: g a ++ concat (g <$> es)).
  destruct (decide (e0 = a)) as [->|Hne].
  - rewrite (concat_fmap_ext _ g es); [done|].
    intros e He. rewrite decide_False; [done|]. intros ->. done.
  - apply elem_of_cons in Hin as [->|Hin]; [done|].
    rewrite (IH Hnd Hin). symmetry. apply Permutation_middle.
Qed.

(** Sorting the elements of a list by destination, over destinations
    listed once, gives the list back up to order. *)
Lemma concat_filter_partition (d : handle → option loc) (es : list loc)
    (l : list handle) :
  NoDup es → (∀ h, h ∈ l → ∃ e, d h = Some e ∧ e ∈ es) →
  concat ((λ e, filter (λ h, d h = Some e) l) <$> es) ≡ₚ l.
Proof.
  intros Hnd. induction l as [|x l IH]; intros Hall.
  - by rewrite concat_nil_all.
  - destruct (Hall x) as (e0 & Hx & He0); [left|].
    rewrite (concat_fmap_ext _
               (λ e, if decide (e0 = e) then x :: filter (λ h, d h = Some e) l
                     else filter (λ h, d h = Some e) l) es).
    + rewrite concat_fmap_cons_one; [|done|done]. f_equiv. apply IH.
      intros h Hh. apply Hall. by right.
    + intros e _. destruct (decide (e0 = e)) as [->|Hne].
      * by rewrite filter_cons_True.
      * rewrite filter_cons_False; [done|]. rewrite Hx. congruence.
Qed.

Lemma values_delete (m : gmap value loc) k e :
  m !! k = Some e → (map_to_list m).*2 ≡ₚ e :: (map_to_list (delete k m)).*2.
Proof. intros Hk. by rewrite <- (map_to_list_delete m k e Hk). Qed.

(** X13. On a registry without dangling or shared space objects and for
    keys other than the sentinel [0], a call of [repair_owner_tags] that
    returns neither loses nor duplicates a handle: what [handles] yields
    afterwards is what it yielded before, up to order, and [__len__] is
    the same. *)
Theorem repair_owner_tags_conserves_handles fuel mk pk st st' :
  heap_closed st → no_alias st →
  mk ≠ VInt 0 → pk ≠ VInt 0 →
  repair_owner_tags fuel mk pk st = Return tt st' →
  handles st' ≡ₚ handles st ∧ __len__ st' = __len__ st.
Proof.
  intros Hclosed Halias Hmk0 Hpk0 Hrun.
  assert (Hperm : handles st' ≡ₚ handles st).
  2:{ split; [done|]. rewrite <- !handles_length. by apply Permutation_length. }
  destruct (legacy (dxfversion st)) eqn:Hleg.
  { rewrite repair_legacy_returns in Hrun; [|done]. by injection Hrun as <-. }
  destruct (layout_spaces st !! VInt 0) as [tid|] eqn:Htid.
  2:{ rewrite repair_without_temp_returns in Hrun; [|done]. by injection Hrun as <-. }
  destruct (repair_owner_tags_exact_run fuel mk pk st st' tid
              Hclosed Halias Hmk0 Hpk0 Hleg Htid Hrun)
    as (mid & pid & st2 & d & Hmk2 & Hpk2 & Htid2 & Halias2 & _ & _ & Hh2 &
        Hlay' & Hcont' & Hdest).
  pose proof (values_delete _ _ _ Htid2) as Hv2.
  assert (Hnd : NoDup ((map_to_list (delete (VInt 0) (layout_spaces st2))).*2)).
  { pose proof (values_NoDup st2 Halias2) as Hnd2. unfold values in Hnd2.
    rewrite Hv2 in Hnd2. by apply NoDup_cons in Hnd2 as [_ ?]. }
  assert (Hin : ∀ k e, k ≠ VInt 0 → layout_spaces st2 !! k = Some e →
                e ∈ (map_to_list (delete (VInt 0) (layout_spaces st2))).*2).
  { intros k e Hk He. apply list_elem_of_fmap. exists (k, e). split; [done|].
    apply elem_of_map_to_list. by rewrite lookup_delete_ne. }
  rewrite <- Hh2. unfold handles, __iter__, values. rewrite Hlay'.
  rewrite (concat_fmap_Permutation _ _ _ Hv2).
  match goal with |- concat (?f <$> ?l) ≡ₚ concat (?g <$> _) =>
    rewrite (concat_fmap_ext f
               (λ e, content st2 e ++ filter (λ h, d h = Some e) (content st2 tid)) l);
    [|intros e _; apply Hcont'];
    change (concat (g <$> tid :: l)) with (content st2 tid ++ concat (g <$> l))
  end.
  rewrite concat_fmap_app. rewrite concat_filter_partition; [|done|].
  - apply Permutation_app_comm.
  - intros h Hh. destruct (Hdest h Hh) as (rk & _ & _ & Hd).
    destruct (decide (rk = mk)).
    + exists mid. split; [done|]. by apply (Hin mk).
    + exists pid. split; [done|]. by apply (Hin pk).
Qed.

Lemma repair_owner_tags_conserves_handles_witness :
  heap_closed st_ABC ∧ no_alias st_ABC ∧
  VInt 100 ≠ VInt 0 ∧ VInt 200 ≠ VInt 0 ∧
  repair_owner_tags 4 (VInt 100) (VInt 200) st_ABC = Return tt st_repaired ∧
  handles st_repaired ≡ₚ handles st_ABC ∧ __len__ st_repaired = __len__ st_ABC.
Proof.
  assert (H1 : heap_closed st_ABC) by (apply (bool_decide_unpack _); vm_compute; exact I).
  assert (H2 : no_alias st_ABC) by (apply (bool_decide_unpack _); vm_compute; exact I).
  assert (H3 : VInt 100 ≠ VInt 0) by discriminate.
  assert (H4 : VInt 200 ≠ VInt 0) by discriminate.
  assert (H5 : repair_owner_tags 4 (VInt 100) (VInt 200) st_ABC = Return tt st_repaired).
  { vm_compute. reflexivity. }
  split; [exact H1|]. split; [exact H2|]. split; [exact H3|]. split; [exact H4|].
  split; [exact H5|].
  exact (repair_owner_tags_conserves_handles 4 (VInt 100) (VInt 200) st_ABC st_repaired
           H1 H2 H3 H4 H5).
Defined.

(** ** [write] only writes *)

Lemma appended_refl st : appended st st.
Proof.
  exists []. split; [|constructor]. rewrite app_nil_r. by destruct st.
Qed.

Lemma appended_trans st1 st2 st3 :
  appended st1 st2 → appended st2 st3 → appended st1 st3.
Proof.
  intros (o1 & -> & H1) (o2 & -> & H2). exists (o1 ++ o2). simpl. split.
  - by rewrite app_assoc.
  - apply Forall_app. done.
Qed.

Lemma write_linked_appends fuel :
  ∀ h st, appends_only st (EntitySpace.write_linked fuel h st).
Proof.
  induction fuel as [|fuel IH]; intros [h|] st; simpl;
    try done; try apply appended_refl.
  unfold bind, entitydb_getitem.
  destruct (entitydb st !! h) as [t|] eqn:Ht; [|split; [done|apply appended_refl]].
  unfold EntitySpace.write_tags.
  assert (H1 : appended st (set_written st (written st ++ [t]))).
  { exists [t]. split; [done|]. apply Forall_singleton. by exists h. }
  specialize (IH (link t) (set_written st (written st ++ [t]))).
  destruct (EntitySpace.write_linked fuel (link t) _) as [[] s|e s|]; [| |done].
  - by apply (appended_trans _ _ _ H1).
  - destruct IH as [-> IH]. split; [done|]. by apply (appended_trans _ _ _ H1).
Qed.

Lemma entity_space_write_appends fuel self st :
  appends_only st (EntitySpace.write fuel self st).
Proof.
  unfold EntitySpace.write.
  pose proof (for_in_rule (λ _ s, appended st s) (λ e s, e = KeyError ∧ appended st s)
                self (λ h, EntitySpace.write_linked fuel (Some h))) as Hrule.
  assert (Hbody : ∀ (i : nat) x s, appended st s → content s self !! i = Some x →
    match EntitySpace.write_linked fuel (Some x) s with
    | Return _ s' => appended st s'
    | Raise e s' => e = KeyError ∧ appended st s'
    | OutOfFuel => True
    end).
  { intros i x s Hs _. pose proof (write_linked_appends fuel (Some x) s) as Hw.
    destruct (EntitySpace.write_linked fuel (Some x) s) as [[] s'|e s'|]; [| |done].
    - by apply (appended_trans _ s).
    - destruct Hw as [-> Hw]. split; [done|]. by apply (appended_trans _ s). }
  specialize (Hrule Hbody fuel 0 st (appended_refl st)).
  destruct (for_in fuel self 0 _ st) as [[] s|e s|]; [|done|done].
  by destruct Hrule as (n & _ & Hs & _).
Qed.

Lemma iterate_write_appends fuel ks :
  ∀ st, appends_only st
          (iterate ks (λ key, bind (__getitem__ key) (λ es, EntitySpace.write fuel es)) st).
Proof.
  induction ks as [|k ks IH]; intros st; [apply appended_refl|].
  rewrite iterate_cons. unfold bind at 1. unfold bind at 1. unfold __getitem__.
  destruct (layout_spaces st !! k) as [es|]; [|split; [done|apply appended_refl]].
  pose proof (entity_space_write_appends fuel es st) as Hw.
  destruct (EntitySpace.write fuel es st) as [[] s|e s|]; [|done|done].
  specialize (IH s).
  destruct (iterate ks _ s) as [[] s'|e s'|]; [| |done].
  - by apply (appended_trans _ s).
  - destruct IH as [-> IH]. split; [done|]. by apply (appended_trans _ s).
Qed.

(** X14. [write], of one space or of the registry, with or without a list
    of keys: whether it returns or raises, it has changed nothing but the
    tag writer, which has received records of the database after what it
    held; and the only exception it raises is [KeyError]. *)
Theorem write_only_appends fuel st :
  (∀ self, appends_only st (EntitySpace.write fuel self st)) ∧
  (∀ ks, appends_only st (write fuel ks st)).
Proof.
  split; [intros self; apply entity_space_write_appends|].
  intros ks. unfold write. apply iterate_write_appends.
Qed.

(** ** [set_entity_space] registers the object itself *)

(** X15. [set_entity_space] registers the space object it is given, not a
    copy: when the object is already registered under a key, a record
    stored under that key afterwards shows under both keys, and no other
    space object changes. *)
Theorem set_entity_space_shares_object st k1 k2 es t :
  layout_spaces st !! k1 = Some es → get_key st t = k1 →
  ∃ st', bind (set_entity_space k2 es) (λ _, store_tags t) st = Return tt st' ∧
    __getitem__ k1 st' = Return es st' ∧
    __getitem__ k2 st' = Return es st' ∧
    space_of st' k1 = content st es ++ [get_handle t] ∧
    space_of st' k2 = content st es ++ [get_handle t] ∧
    (∀ e, e ≠ es → content st' e = content st e) ∧
    (∀ k, k ≠ k2 → layout_spaces st' !! k = layout_spaces st !! k).
Proof.
  intros Hk1 Hkey.
  set (st1 := set_layout_spaces st (<[k2 := es]> (layout_spaces st))).
  assert (H1 : layout_spaces st1 !! k1 = Some es).
  { simpl. destruct (decide (k2 = k1)) as [->|Hne].
    - apply lookup_insert_eq.
    - by rewrite lookup_insert_ne. }
  assert (H2 : layout_spaces st1 !! k2 = Some es) by (simpl; apply lookup_insert_eq).
  assert (Hget : get_entity_space (get_key st1 t) st1 = Return es st1).
  { change (get_key st1 t) with (get_key st t). rewrite Hkey.
    unfold get_entity_space. by rewrite H1. }
  set (st' := set_heap st1 (<[es := content st1 es ++ [get_handle t]]> (heap st1))).
  exists st'. split.
  { unfold bind, set_entity_space. fold st1. by apply store_tags_run. }
  assert (Hlay : layout_spaces st' = layout_spaces st1) by done.
  assert (Hes : content st' es = content st es ++ [get_handle t]).
  { unfold st'. by rewrite content_insert_eq. }
  unfold __getitem__, space_of. rewrite Hlay, H1, H2, Hes.
  split; [done|]. split; [done|]. split; [done|]. split; [done|]. split.
  - intros e Hne. unfold st'. by rewrite content_insert_ne.
  - intros k Hne. simpl. by apply lookup_insert_ne.
Qed.

Lemma set_entity_space_shares_object_witness :
  layout_spaces st_ABC !! VInt 0 = Some 0 ∧ get_key st_ABC rec_bare = VInt 0 ∧
  ∃ st', bind (set_entity_space (VInt 7) 0) (λ _, store_tags rec_bare) st_ABC
         = Return tt st' ∧
    __getitem__ (VInt 0) st' = Return 0 st' ∧
    __getitem__ (VInt 7) st' = Return 0 st' ∧
    space_of st' (VInt 0) = content st_ABC 0 ++ [get_handle rec_bare] ∧
    space_of st' (VInt 7) = content st_ABC 0 ++ [get_handle rec_bare] ∧
    (∀ e, e ≠ 0 → content st' e = content st_ABC e) ∧
    (∀ k, k ≠ VInt 7 → layout_spaces st' !! k = layout_spaces st_ABC !! k).
Proof.
  assert (H1 : layout_spaces st_ABC !! VInt 0 = Some 0) by (vm_compute; reflexivity).
  assert (H2 : get_key st_ABC rec_bare = VInt 0) by (vm_compute; reflexivity).
  split; [exact H1|]. split; [exact H2|].
  exact (set_entity_space_shares_object st_ABC (VInt 0) (VInt 7) 0 rec_bare H1 H2).
Defined.

(** ** C3: which calls complete *)














(** ** C4: the owner tag is overwritten before it is checked *)






